(** * FutureArena dashboard: the derivation layer of [assets/js/app.js]

    A shallow embedding of the pure derivations of the dashboard script
    (calendar normalisation, streaks, leaderboard order, challenge scoring,
    the aggregate chart series and the calendar intensity) together with
    the properties its specification states about them.

    Conventions of the embedding.
    - A JavaScript number that the data model declares an integer (a day,
      [agiDays], a count) is a [Z]; a number that may have a fraction (the
      [solved] value of a performance point) is the rational [Q] it
      denotes.  A field that may be missing or hold something that is not
      a number is an option, [None] standing for a value whose [typeof]
      is not ["number"] and whose numeric coercion is NaN.
    - Floating-point addition and the division followed by [toFixed(2)]
      are parameters ([fadd], [toFixed2]) of the functions that use them;
      the theorems name what they ask of them.
    - A JavaScript [Map] is an association list in insertion order
      ([JsMap]); [Array.prototype.sort] is a stable sort driven by the
      comparator's sign ([JsArray.sort]).
    - The process-wide [STATE] is passed explicitly to every function
      that reads it.
    - The alpha of a calendar day is an exact rational ([Q]); the values of
      the chart series are integers counting hundredths. *)

From Stdlib Require Import List ZArith QArith Qminmax Lia Lqa Bool String
  Permutation Sorted.
From Stdlib Require Import Ascii Qabs.
Import ListNotations.

Local Open Scope string_scope.
Local Open Scope Z_scope.

(** ** JavaScript [Map]: insertion-ordered association lists *)

Module JsMap.
Section WithKey.
Context {K V : Type}.
Variable K_eq_dec : forall a b : K, {a = b} + {a <> b}.

Definition t := list (K * V).

Definition empty : t := [].

(** [map.get(k)]; [None] is [undefined]. *)
Fixpoint get (k : K) (m : t) : option V :=
  match m with
  | [] => None
  | (k', v) :: m' => if K_eq_dec k k' then Some v else get k m'
  end.

(** [map.has(k)]. *)
Definition has (k : K) (m : t) : bool :=
  match get k m with Some _ => true | None => false end.

(** [map.set(k, v)]: an existing key keeps its position, a new key is
    appended. *)
Fixpoint set (k : K) (v : V) (m : t) : t :=
  match m with
  | [] => [(k, v)]
  | (k', v') :: m' =>
      if K_eq_dec k k' then (k', v) :: m' else (k', v') :: set k v m'
  end.

(** [new Map(entries)]. *)
Definition of_entries (es : list (K * V)) : t :=
  fold_left (fun m e => set (fst e) (snd e) m) es empty.

Definition keys (m : t) : list K := map fst m.
Definition values (m : t) : list V := map snd m.
Definition entries (m : t) : list (K * V) := m.
End WithKey.
End JsMap.

(** ** [Array.prototype.sort] with a comparator *)

Module JsArray.
Section WithCmp.
Context {A : Type}.
(** The comparator's result; a NaN result is passed as [0], which is how
    the sort reads it.  The sort is stable: an element moves behind the
    elements the comparator puts strictly before it, and behind no
    other. *)
Variable cmp : A -> A -> Z.

Fixpoint insert (x : A) (l : list A) : list A :=
  match l with
  | [] => [x]
  | y :: l' => if 0 <? cmp x y then y :: insert x l' else x :: y :: l'
  end.

Definition sort (l : list A) : list A := fold_right insert [] l.
End WithCmp.
End JsArray.

(** ** Data model *)

(** A calendar status: the four values of the data model, and [Unknown]
    for any other string for which the script's lookup tables
    ([STATUS_LABELS], [paletteByStatus]) have no entry. *)
Inductive Status := Agi | Evaluating | Pending | Missed | Unknown.

Module CalendarDayRecord.
Record t := mk {
  day : option Z;
  status : option Status;
  correct : option Z;
  topPerformer : option string;
  note : option string
}.
End CalendarDayRecord.

Module StreakResult.
Record t := mk { current : nat; longest : nat }.
End StreakResult.

Module PerformancePoint.
Record t := mk { day : option Z; solved : option Q }.
End PerformancePoint.

Module Participant.
Record t := mk {
  id : option string;
  name : string;
  type : string;
  agiDays : option Z;
  longestStreak : option Z;
  performance : option (list PerformancePoint.t)
}.
End Participant.

Module Prediction.
Record t := mk {
  participantId : string;
  isCorrect : bool;
  output : option string
}.
End Prediction.

Module DailyChallenge.
Record t := mk {
  id : string;
  day : Z;
  predictions : option (list Prediction.t)
}.
End DailyChallenge.

(** The process-wide record set. *)
Module State.
Record t := mk {
  currentDay : option Z;
  calendarDays : list CalendarDayRecord.t;
  dailyChallenges : list DailyChallenge.t;
  participants : list Participant.t
}.
End State.

(** [xs || []] on a possibly missing array. *)
Definition orEmpty {A : Type} (xs : option (list A)) : list A :=
  match xs with Some l => l | None => [] end.

(** [n || 0] on a possibly missing number ([0] itself is falsy). *)
Definition orZero (n : option Z) : Z :=
  match n with Some z => z | None => 0 end.

(** ** Record normaliser *)

(** [dedupeCalendarMap]: the [forEach] over [STATE.calendarDays]. *)
Definition dedupeStep (map : JsMap.t (K := Z) (V := CalendarDayRecord.t))
    (record : CalendarDayRecord.t) : JsMap.t :=
  match CalendarDayRecord.day record with
  | None => map
  | Some d => JsMap.set Z.eq_dec d record map
  end.

Definition dedupeCalendarMap (calendarDays : list CalendarDayRecord.t)
    : JsMap.t (K := Z) (V := CalendarDayRecord.t) :=
  fold_left dedupeStep calendarDays JsMap.empty.

(** [a.day - b.day]; NaN when an operand is not a number. *)
Definition dayDiff (a b : option Z) : option Z :=
  match a, b with
  | Some x, Some y => Some (x - y)
  | _, _ => None
  end.

Definition compareByDay (a b : CalendarDayRecord.t) : Z :=
  orZero (dayDiff (CalendarDayRecord.day a) (CalendarDayRecord.day b)).

Definition getCalendarRecords (calendarDays : list CalendarDayRecord.t)
    : list CalendarDayRecord.t :=
  JsArray.sort compareByDay (JsMap.values (dedupeCalendarMap calendarDays)).

(** ** Streak analyser *)

(** [entry.status === "agi"]. *)
Definition isAgi (entry : CalendarDayRecord.t) : bool :=
  match CalendarDayRecord.status entry with
  | Some Agi => true
  | _ => false
  end.

(** The body of the [forEach] of [computeStreaks], on the pair
    [(longest, running)]. *)
Definition streakStep (acc : nat * nat) (entry : CalendarDayRecord.t)
    : nat * nat :=
  let '(longest, running) := acc in
  if isAgi entry then
    let running := S running in
    (if Nat.ltb longest running then running else longest, running)
  else (longest, 0%nat).

(** The backward [for] loop of [computeStreaks]: [n] is [i + 1], so the
    loop stops at [n = 0]; [break] leaves with the count so far. *)
Fixpoint currentLoop (sorted : list CalendarDayRecord.t) (n : nat)
    (current : nat) : nat :=
  match n with
  | O => current
  | S i =>
      match nth_error sorted i with
      | Some entry =>
          if isAgi entry then currentLoop sorted i (S current) else current
      | None => current
      end
  end.

Definition computeStreaks (records : list CalendarDayRecord.t)
    : StreakResult.t :=
  match records with
  | [] => StreakResult.mk 0 0
  | _ =>
      let sorted := JsArray.sort compareByDay records in
      let longest := fst (fold_left streakStep sorted (0%nat, 0%nat)) in
      let current := currentLoop sorted (List.length sorted) 0 in
      StreakResult.mk current longest
  end.

(** ** Leaderboard ranker *)

(** [(b.agiDays || 0) - (a.agiDays || 0)]. *)
Definition compareByAgiDays (a b : Participant.t) : Z :=
  orZero (Participant.agiDays b) - orZero (Participant.agiDays a).

(** The [sorted] array of [renderLeaderboard]. *)
Definition renderLeaderboard_sorted (state : State.t) : list Participant.t :=
  JsArray.sort compareByAgiDays (State.participants state).

(** ** Challenge scorer *)

Definition id_eq_dec (a b : option string) : {a = b} + {a <> b}.
Proof. decide equality. apply string_dec. Defined.

(** [new Map(STATE.participants.map((entry) => [entry.id, entry]))], the
    [participantLookup] of [renderDailyList] and the [participantsById] of
    [renderChartForType]. *)
Definition participantLookup (participants : list Participant.t)
    : JsMap.t (K := option string) (V := Participant.t) :=
  JsMap.of_entries id_eq_dec
    (map (fun entry => (Participant.id entry, entry)) participants).

(** The literal [{ name: "Unknown", type: "LLM" }]. *)
Definition placeholder : Participant.t :=
  Participant.mk None "Unknown" "LLM" None None None.

(** [participantLookup.get(prediction.participantId) || placeholder]. *)
Definition resolveParticipant
    (lookup : JsMap.t (K := option string) (V := Participant.t))
    (prediction : Prediction.t) : Participant.t :=
  match JsMap.get id_eq_dec (Some (Prediction.participantId prediction)) lookup with
  | Some participant => participant
  | None => placeholder
  end.

Module PredictionItem.
Record t := mk {
  label : string;
  typeLabel : string;
  correct : bool;
  key : string
}.
End PredictionItem.

Module DailyCard.
Record t := mk {
  day : Z;
  correctCount : nat;
  total : nat;
  items : list PredictionItem.t
}.
End DailyCard.

Definition predictionItem
    (lookup : JsMap.t (K := option string) (V := Participant.t))
    (challenge : DailyChallenge.t) (prediction : Prediction.t)
    : PredictionItem.t :=
  let participant := resolveParticipant lookup prediction in
  PredictionItem.mk
    (Participant.name participant)
    (if String.eqb (Participant.type participant) "Agent"
     then "Agent System" else "LLM API")
    (Prediction.isCorrect prediction)
    (DailyChallenge.id challenge ++ "-" ++ Prediction.participantId prediction).

Definition dailyCard
    (lookup : JsMap.t (K := option string) (V := Participant.t))
    (challenge : DailyChallenge.t) : DailyCard.t :=
  let predictions := orEmpty (DailyChallenge.predictions challenge) in
  DailyCard.mk
    (DailyChallenge.day challenge)
    (List.length (filter Prediction.isCorrect predictions))
    (List.length predictions)
    (map (predictionItem lookup challenge) predictions).

(** The challenges [renderDailyList] shows: those of the current day when
    the marker is set and some challenge matches it, all of them
    otherwise. *)
Definition selectChallenges (state : State.t) : list DailyChallenge.t :=
  match State.currentDay state with
  | Some todaysDay =>
      if todaysDay =? 0 then State.dailyChallenges state
      else
        match filter (fun challenge => DailyChallenge.day challenge =? todaysDay)
                (State.dailyChallenges state) with
        | [] => State.dailyChallenges state
        | todaysChallenges => todaysChallenges
        end
  | None => State.dailyChallenges state
  end.

(** [renderDailyList], as the list of cards it appends. *)
Definition renderDailyList (state : State.t) : list DailyCard.t :=
  map (dailyCard (participantLookup (State.participants state)))
      (selectChallenges state).

(** ** Series aggregator *)

Module Bucket.
Record t := mk { solved : Q; count : Z; max : Z }.
End Bucket.

(** A chart point [{ x, y }]; [y] is kept in hundredths, the unit of
    [toFixed(2)]. *)
Module AggregatePoint.
Record t := mk { x : Z; y : Z }.
End AggregatePoint.

(** The closure [addValue] of [buildAggregateSeries]; the bucket is
    updated in place, so it keeps its position in the map.  [fadd a b]
    stands for the engine's [a + b] on doubles. *)
Definition addValue (fadd : Q -> Q -> Q)
    (dayTotals : JsMap.t (K := Z) (V := Bucket.t))
    (day : Z) (solved : Q) (possible : Z) : JsMap.t (K := Z) (V := Bucket.t) :=
  let dayTotals :=
    if JsMap.has Z.eq_dec day dayTotals then dayTotals
    else JsMap.set Z.eq_dec day (Bucket.mk 0 0 0) dayTotals in
  match JsMap.get Z.eq_dec day dayTotals with
  | Some bucket =>
      JsMap.set Z.eq_dec day
        (Bucket.mk (fadd (Bucket.solved bucket) solved)
                   (Bucket.count bucket + 1)
                   (Z.max (Bucket.max bucket) possible))
        dayTotals
  | None => dayTotals
  end.

(** [Math.min(Math.max(solved, 0), 10)]. *)
Definition clampSolved (solved : Q) : Q := Qmin (Qmax solved 0) 10.

Definition addPoint (fadd : Q -> Q -> Q)
    (dayTotals : JsMap.t (K := Z) (V := Bucket.t))
    (point : PerformancePoint.t) : JsMap.t (K := Z) (V := Bucket.t) :=
  match PerformancePoint.day point, PerformancePoint.solved point with
  | Some day, Some solved => addValue fadd dayTotals day (clampSolved solved) 10
  | _, _ => dayTotals
  end.

Definition addParticipant (fadd : Q -> Q -> Q) (type : string)
    (dayTotals : JsMap.t (K := Z) (V := Bucket.t))
    (participant : Participant.t) : JsMap.t (K := Z) (V := Bucket.t) :=
  if negb (String.eqb (Participant.type participant) type) then dayTotals
  else fold_left (addPoint fadd)
         (orEmpty (Participant.performance participant)) dayTotals.

Definition addPrediction (fadd : Q -> Q -> Q) (type : string)
    (participantsById : JsMap.t (K := option string) (V := Participant.t))
    (day : Z) (dayTotals : JsMap.t (K := Z) (V := Bucket.t))
    (prediction : Prediction.t) : JsMap.t (K := Z) (V := Bucket.t) :=
  match JsMap.get id_eq_dec (Some (Prediction.participantId prediction))
          participantsById with
  | None => dayTotals
  | Some participant =>
      if negb (String.eqb (Participant.type participant) type) then dayTotals
      else
        let solved := (if Prediction.isCorrect prediction then 10 else 0)%Q in
        addValue fadd dayTotals day solved 10
  end.

Definition addChallenge (fadd : Q -> Q -> Q) (type : string)
    (participantsById : JsMap.t (K := option string) (V := Participant.t))
    (dayTotals : JsMap.t (K := Z) (V := Bucket.t))
    (challenge : DailyChallenge.t) : JsMap.t (K := Z) (V := Bucket.t) :=
  let day := DailyChallenge.day challenge in
  fold_left (addPrediction fadd type participantsById day)
    (orEmpty (DailyChallenge.predictions challenge)) dayTotals.

(** The map [dayTotals] once both [forEach] passes are over. *)
Definition dayTotals (fadd : Q -> Q -> Q) (type : string)
    (participantsById : JsMap.t (K := option string) (V := Participant.t))
    (state : State.t) : JsMap.t (K := Z) (V := Bucket.t) :=
  let afterParticipants :=
    fold_left (addParticipant fadd type) (State.participants state)
      JsMap.empty in
  fold_left (addChallenge fadd type participantsById)
    (State.dailyChallenges state) afterParticipants.

Definition compareByX (a b : AggregatePoint.t) : Z :=
  AggregatePoint.x a - AggregatePoint.x b.

(** The callback of the [map] over [dayTotals.entries()].
    [toFixed2 solved count] stands for
    [Number((solved / count).toFixed(2))] in hundredths: the division and
    the decimal rounding are done in binary floating point by the engine,
    so the function is a parameter here. *)
Definition seriesPoint (toFixed2 : Q -> Z -> Z) (entry : Z * Bucket.t)
    : AggregatePoint.t :=
  let '(day, totals) := entry in
  if Bucket.count totals =? 0 then AggregatePoint.mk day 0
  else AggregatePoint.mk day
         (toFixed2 (Bucket.solved totals) (Bucket.count totals)).

(** [buildAggregateSeries]. *)
Definition buildAggregateSeries (fadd : Q -> Q -> Q) (toFixed2 : Q -> Z -> Z)
    (type : string)
    (participantsById : JsMap.t (K := option string) (V := Participant.t))
    (state : State.t) : list AggregatePoint.t :=
  JsArray.sort compareByX
    (map (seriesPoint toFixed2)
       (JsMap.entries (dayTotals fadd type participantsById state))).

(** The call of [renderChartForType]: the lookup is built from the same
    participant set. *)
Definition aggregateData (fadd : Q -> Q -> Q) (toFixed2 : Q -> Z -> Z)
    (type : string) (state : State.t) : list AggregatePoint.t :=
  buildAggregateSeries fadd toFixed2 type
    (participantLookup (State.participants state)) state.

(** What the theorems ask of the engine's arithmetic.

    Of the addition: integers add exactly, and adding a value of
    [[0, 10]] to a sum of [n] such values stays within [[0, 10 (n + 1)]]
    (the bounds are doubles and rounding is monotone). *)
Definition exactOnIntegers (fadd : Q -> Q -> Q) : Prop :=
  forall a b : Z, fadd (inject_Z a) (inject_Z b) = inject_Z (a + b).

Definition addInRange (fadd : Q -> Q -> Q) : Prop :=
  forall (n : Z) (a b : Q), 0 <= n ->
    (0 <= a <= 10 * inject_Z n)%Q -> (0 <= b <= 10)%Q ->
    (0 <= fadd a b <= 10 * inject_Z (n + 1))%Q.

(** Of the rounding: on an integer sum, [r / 100] is within [0.005] of
    [solved / count], a nearest hundredth; on every sum of [count] values
    of [[0, 10]], the result is within a hundredth of the quotient and
    within [[0, 10]]. *)
Definition nearestHundredth (toFixed2 : Q -> Z -> Z) : Prop :=
  forall solved count : Z, 0 < count ->
    2 * Z.abs (100 * solved - count * toFixed2 (inject_Z solved) count)
    <= count.

Definition roundsToHundredths (toFixed2 : Q -> Z -> Z) : Prop :=
  forall (solved : Q) (count : Z), 0 < count ->
    (0 <= solved <= 10 * inject_Z count)%Q ->
    0 <= toFixed2 solved count <= 1000 /\
    (Qabs (100 * solved - inject_Z (count * toFixed2 solved count))
     <= inject_Z count)%Q.

(** Rounding of the exact quotient, halves upwards: one such function. *)
Definition roundHalfUp (solved : Q) (count : Z) : Z :=
  (200 * Qnum solved + Zpos (Qden solved) * count)
  / (2 * (Zpos (Qden solved) * count)).

(** ** Intensity mapper *)

(** [paletteByStatus[status] || { ..., baseAlpha: 0.4 }], the alpha part. *)
Definition baseAlpha (status : Status) : Q :=
  match status with
  | Agi => 0.35
  | Evaluating => 0.32
  | Pending => 0.24
  | Missed => 0.32
  | Unknown => 0.4
  end%Q.

(** [Math.min(Math.max(entry.correct / 10, 0), 1)]. *)
Definition accuracyRatio (correct : Z) : Q :=
  Qmin (Qmax (inject_Z correct / 10) 0) 1.

(** The value of [alpha] before the final clamp. *)
Definition rawAlpha (status : Status) (correct : option Z) : Q :=
  match correct with
  | None => baseAlpha status
  | Some c =>
      let accuracyRatio := accuracyRatio c in
      match status with
      | Agi => 0.25 + accuracyRatio * 0.7
      | Missed => 0.25 + (1 - accuracyRatio) * 0.5
      | Evaluating => 0.25 + accuracyRatio * 0.4
      | Pending => 0.18 + accuracyRatio * 0.3
      | Unknown => baseAlpha status
      end
  end%Q.

(** [clampedAlpha = Math.min(Math.max(alpha, 0.12), 0.95)]. *)
Definition clampedAlpha (status : Status) (correct : option Z) : Q :=
  Qmin (Qmax (rawAlpha status correct) 0.12) 0.95.

(** [entry?.status || "pending"]. *)
Definition entryStatus (entry : option CalendarDayRecord.t) : Status :=
  match entry with
  | Some e =>
      match CalendarDayRecord.status e with
      | Some status => status
      | None => Pending
      end
  | None => Pending
  end.

(** [entry?.correct], with [null] and [undefined] both [None]. *)
Definition entryCorrect (entry : option CalendarDayRecord.t) : option Z :=
  match entry with
  | Some e => CalendarDayRecord.correct e
  | None => None
  end.

(** One turn of the loop of [renderCalendar]: the alpha of a day card. *)
Definition dayCardAlpha (calendarRecords : JsMap.t (K := Z) (V := CalendarDayRecord.t))
    (day : Z) : Q :=
  let entry := JsMap.get Z.eq_dec day calendarRecords in
  clampedAlpha (entryStatus entry) (entryCorrect entry).

(** [renderCalendar], as the alphas of its hundred day cards. *)
Definition renderCalendar (state : State.t) : list Q :=
  let calendarRecords := dedupeCalendarMap (State.calendarDays state) in
  map (fun i => dayCardAlpha calendarRecords (Z.of_nat i)) (seq 1 100).

(** ** Runs of AGI days, in the specification's words *)

Definition allAgi (l : list CalendarDayRecord.t) : Prop :=
  Forall (fun entry => isAgi entry = true) l.

(** [n] is the length of the trailing run of [s]: the longest suffix made
    of ['agi'] records only, the record before it (if any) not being one. *)
Definition trailingRun (s : list CalendarDayRecord.t) (n : nat) : Prop :=
  exists pre suf,
    s = (pre ++ suf)%list /\ allAgi suf /\ List.length suf = n /\
    (pre = [] \/ exists q y, pre = (q ++ [y])%list /\ isAgi y = false).

(** [seg] is a contiguous run of ['agi'] records of [s]. *)
Definition isRun (s seg : list CalendarDayRecord.t) : Prop :=
  exists a b, s = (a ++ seg ++ b)%list /\ allAgi seg.

(** [n] is the greatest length of a contiguous run of [s]. *)
Definition longestRun (s : list CalendarDayRecord.t) (n : nat) : Prop :=
  (exists seg, isRun s seg /\ List.length seg = n) /\
  (forall seg, isRun s seg -> (List.length seg <= n)%nat).

(** The key of the day order, on records whose day is a number. *)
Definition dayKey (r : CalendarDayRecord.t) : Z :=
  orZero (CalendarDayRecord.day r).

Definition numericDay (r : CalendarDayRecord.t) : Prop :=
  CalendarDayRecord.day r <> None.

(** What holds of the map all along the [forEach]: one entry per key,
    every entry a record of the feed filed under its own day. *)
Definition normalised (calendarDays : list CalendarDayRecord.t)
    (m : JsMap.t (K := Z) (V := CalendarDayRecord.t)) : Prop :=
  NoDup (JsMap.keys m) /\
  forall k v, In (k, v) m ->
    CalendarDayRecord.day v = Some k /\ In v calendarDays.

(** ** Contributions to the aggregate series, in the specification's words *)

(** [clamp(x, lo, hi)]: [lo] below [lo], [hi] above [hi], [x] between. *)
Definition clampBetween (lo hi x : Q) : Q :=
  if Qlt_le_dec x lo then lo
  else if Qlt_le_dec hi x then hi
  else x.

(** A performance point contributes [(day, clamp(solved, 0, 10))]; a point
    without a numeric day or value has nothing to contribute. *)
Definition pointContribution (point : PerformancePoint.t) : list (Z * Q) :=
  match PerformancePoint.day point, PerformancePoint.solved point with
  | Some day, Some solved => [(day, clampBetween 0 10 solved)]
  | _, _ => []
  end.

Definition participantContributions (type : string)
    (participant : Participant.t) : list (Z * Q) :=
  if String.eqb (Participant.type participant) type
  then flat_map pointContribution (orEmpty (Participant.performance participant))
  else [].

(** The prediction was made by a participant of the cohort. *)
Definition byCohort (type : string)
    (participantsById : JsMap.t (K := option string) (V := Participant.t))
    (prediction : Prediction.t) : bool :=
  match JsMap.get id_eq_dec (Some (Prediction.participantId prediction))
          participantsById with
  | Some participant => String.eqb (Participant.type participant) type
  | None => false
  end.

(** A prediction contributes 10 if correct, else 0. *)
Definition predictionScore (prediction : Prediction.t) : Z :=
  if Prediction.isCorrect prediction then 10 else 0.

(** The predictions on the challenges of day [d]. *)
Definition predictionsOn (state : State.t) (d : Z) : list Prediction.t :=
  flat_map (fun challenge =>
              if DailyChallenge.day challenge =? d
              then orEmpty (DailyChallenge.predictions challenge)
              else [])
    (State.dailyChallenges state).

(** The predictions of cohort participants on the challenges of day [d]. *)
Definition cohortPredictionsOn (type : string)
    (participantsById : JsMap.t (K := option string) (V := Participant.t))
    (state : State.t) (d : Z) : list Prediction.t :=
  flat_map (fun challenge =>
              if DailyChallenge.day challenge =? d
              then filter (byCohort type participantsById)
                     (orEmpty (DailyChallenge.predictions challenge))
              else [])
    (State.dailyChallenges state).

Definition challengeContributions (type : string)
    (participantsById : JsMap.t (K := option string) (V := Participant.t))
    (challenge : DailyChallenge.t) : list (Z * Q) :=
  map (fun prediction =>
         (DailyChallenge.day challenge, inject_Z (predictionScore prediction)))
    (filter (byCohort type participantsById)
       (orEmpty (DailyChallenge.predictions challenge))).

Definition performanceContributions (type : string) (state : State.t)
    : list (Z * Q) :=
  flat_map (participantContributions type) (State.participants state).

Definition predictionContributions (type : string)
    (participantsById : JsMap.t (K := option string) (V := Participant.t))
    (state : State.t) : list (Z * Q) :=
  flat_map (challengeContributions type participantsById)
    (State.dailyChallenges state).

(** Every contribution [(day, value)] of the record set to the cohort's
    series, from both sources. *)
Definition contributions (type : string)
    (participantsById : JsMap.t (K := option string) (V := Participant.t))
    (state : State.t) : list (Z * Q) :=
  (performanceContributions type state
   ++ predictionContributions type participantsById state)%list.

(** The values contributed to day [d], in the order they come. *)
Definition onDay (d : Z) (cs : list (Z * Q)) : list Q :=
  map snd (filter (fun c => fst c =? d) cs).

(** The sum of the values as the engine adds them up, one after the
    other from 0. *)
Definition floatSum (fadd : Q -> Q -> Q) (values : list Q) : Q :=
  fold_left fadd values 0%Q.

Definition sumZ (l : list Z) : Z := fold_right Z.add 0 l.

Definition countZ {A : Type} (l : list A) : Z := Z.of_nat (List.length l).

(** The value is an integer. *)
Definition integral (q : Q) : Prop := exists z : Z, q = inject_Z z.

(** Every [solved] value of the participants is an integer. *)
Definition integralPerformance (participants : list Participant.t) : Prop :=
  forall participant point solved,
    In participant participants ->
    In point (orEmpty (Participant.performance participant)) ->
    PerformancePoint.solved point = Some solved ->
    integral solved.

(** The map after a list of contributions has gone through [addValue]. *)
Definition addAll (fadd : Q -> Q -> Q)
    (dayTotals : JsMap.t (K := Z) (V := Bucket.t))
    (cs : list (Z * Q)) : JsMap.t (K := Z) (V := Bucket.t) :=
  fold_left (fun m c => addValue fadd m (fst c) (snd c) 10) cs dayTotals.

(** The buckets of [m] hold the sum and the count of the contributions
    [cs], day by day, and only the days that have some. *)
Definition accumulates (fadd : Q -> Q -> Q)
    (m : JsMap.t (K := Z) (V := Bucket.t))
    (cs : list (Z * Q)) : Prop :=
  NoDup (JsMap.keys m) /\
  forall d,
    match JsMap.get Z.eq_dec d m with
    | None => onDay d cs = []
    | Some bucket =>
        onDay d cs <> [] /\
        Bucket.solved bucket = floatSum fadd (onDay d cs) /\
        Bucket.count bucket = countZ (onDay d cs)
    end.

(** The record set with another list of challenges. *)
Definition withChallenges (state : State.t)
    (challenges : list DailyChallenge.t) : State.t :=
  State.mk (State.currentDay state) (State.calendarDays state) challenges
    (State.participants state).

(** The challenge with another list of predictions. *)
Definition withPredictions (challenge : DailyChallenge.t)
    (predictions : list Prediction.t) : DailyChallenge.t :=
  DailyChallenge.mk (DailyChallenge.id challenge) (DailyChallenge.day challenge)
    (Some predictions).

(** ** Inputs of the specification's examples *)

Definition calendarDay (d : Z) (status : Status) : CalendarDayRecord.t :=
  CalendarDayRecord.mk (Some d) (Some status) None None None.

(** Statuses by day [1:agi, 2:agi, 3:missed, 4:agi]. *)
Definition streakExample : list CalendarDayRecord.t :=
  [calendarDay 1 Agi; calendarDay 2 Agi; calendarDay 3 Missed; calendarDay 4 Agi].

(** Two ['agi'] days with no record for the days between them. *)
Definition gapExample : list CalendarDayRecord.t :=
  [calendarDay 1 Agi; calendarDay 5 Agi].

(** A feed with a record without a day and two records for day 1. *)
Definition dedupeExample : list CalendarDayRecord.t :=
  [CalendarDayRecord.mk None (Some Agi) None None None;
   calendarDay 1 Pending; calendarDay 2 Missed; calendarDay 1 Agi].

(** Participants [{id:A, agiDays:5}, {id:B, agiDays:5}, {id:C, agiDays:7}]. *)
Definition participantOf (id type : string) (agiDays : Z)
    (performance : list PerformancePoint.t) : Participant.t :=
  Participant.mk (Some id) id type (Some agiDays) None (Some performance).

Definition leaderboardExample : State.t :=
  State.mk None [] []
    [participantOf "A" "LLM" 5 []; participantOf "B" "LLM" 5 [];
     participantOf "C" "LLM" 7 []].

Definition predictionOf (participantId : string) (isCorrect : bool)
    : Prediction.t :=
  Prediction.mk participantId isCorrect None.

(** Participant [P] (LLM) with the performance point [(day:3, solved:4)],
    and a day-3 challenge with two predictions of LLM participants, the
    one of [P] correct and the other not. *)
Definition mergeExample : State.t :=
  State.mk (Some 3) []
    [DailyChallenge.mk "c3" 3
       (Some [predictionOf "P" true; predictionOf "R" false])]
    [participantOf "P" "LLM" 0
       [PerformancePoint.mk (Some 3) (Some 4%Q)];
     participantOf "R" "LLM" 0 []].


(** A day-3 challenge with three predictions of LLM participants, one of
    them correct, and no performance point. *)
Definition thirdsExample : State.t :=
  State.mk None []
    [DailyChallenge.mk "c3" 3
       (Some [predictionOf "P" true; predictionOf "R" false;
              predictionOf "S" false])]
    [participantOf "P" "LLM" 0 []; participantOf "R" "LLM" 0 [];
     participantOf "S" "LLM" 0 []].


(** A day-3 challenge with a prediction of [P] and one whose
    [participantId] no participant has. *)
Definition danglingExample : State.t :=
  State.mk None []
    [DailyChallenge.mk "c3" 3
       (Some [predictionOf "P" true; predictionOf "ghost" true])]
    [participantOf "P" "LLM" 0 []].

(** * Further functions of the script *)

(** [Boolean(item)] on a string, [items.length] as a condition on an
    array. *)
Definition nonEmpty {A : Type} (s : list A) : bool :=
  match s with [] => false | _ => true end.

(** ** [renderMetrics], [updateGoalProgress], [updateAgiStatus] *)

(** The text of the progress label: the achievement notice, or the
    longest streak so far with its plural mark and the days still to
    go. *)
Inductive GoalLabel :=
  | GoalAchieved
  | GoalSoFar (longestStreak : nat) (plural : bool) (toGo : Z).

Module GoalProgress.
Record t := mk { label : GoalLabel; width : Q }.
End GoalProgress.

(** [updateGoalProgress]: the label and the width of the bar, in percent. *)
Definition updateGoalProgress (longestStreak : nat) : GoalProgress.t :=
  let label :=
    if (100 <=? longestStreak)%nat then GoalAchieved
    else GoalSoFar longestStreak (negb (longestStreak =? 1)%nat)
           (100 - Z.min (Z.of_nat longestStreak) 100) in
  let width :=
    Qmin ((inject_Z (Z.of_nat longestStreak) / 100) * 100) 100 in
  GoalProgress.mk label width.

(** What [updateAgiStatus] writes: state ["yes"], or state ["no"] with
    the hint's longest streak, plural mark and days still needed. *)
Inductive AgiStatus :=
  | AgiYes
  | AgiNotYet (longest : nat) (plural : bool) (remaining : Z).

Definition updateAgiStatus (streaks : StreakResult.t) : AgiStatus :=
  if (100 <=? StreakResult.current streaks)%nat then AgiYes
  else
    let longest := StreakResult.longest streaks in
    let current := StreakResult.current streaks in
    let remaining :=
      Z.max (100 - Z.max (Z.of_nat longest) (Z.of_nat current)) 0 in
    AgiNotYet longest (negb (longest =? 1)%nat) remaining.

Module Metrics.
Record t := mk {
  daysTracked : nat;
  agiDays : nat;
  currentStreak : nat;
  goal : GoalProgress.t;
  agiStatus : AgiStatus
}.
End Metrics.

(** [renderMetrics], as the values it hands to the page. *)
Definition renderMetrics (state : State.t) : Metrics.t :=
  let calendarRecords := getCalendarRecords (State.calendarDays state) in
  let agiDays := List.length (filter isAgi calendarRecords) in
  let daysTracked := List.length calendarRecords in
  let streaks := computeStreaks calendarRecords in
  Metrics.mk daysTracked agiDays (StreakResult.current streaks)
    (updateGoalProgress (StreakResult.longest streaks))
    (updateAgiStatus streaks).

(** The day numbers a feed carries, in feed order. *)
Definition numericDays (calendarDays : list CalendarDayRecord.t) : list Z :=
  flat_map (fun r => match CalendarDayRecord.day r with
                     | Some d => [d]
                     | None => []
                     end) calendarDays.

(** The record set with another calendar feed. *)
Definition withCalendarDays (state : State.t)
    (calendarDays : list CalendarDayRecord.t) : State.t :=
  State.mk (State.currentDay state) calendarDays
    (State.dailyChallenges state) (State.participants state).

(** The record set with another participant list. *)
Definition withParticipants (state : State.t)
    (participants : list Participant.t) : State.t :=
  State.mk (State.currentDay state) (State.calendarDays state)
    (State.dailyChallenges state) participants.

(** The record belongs to one of the hundred slots of the calendar. *)
Definition inGrid (r : CalendarDayRecord.t) : bool :=
  match CalendarDayRecord.day r with
  | Some d => (1 <=? d) && (d <=? 100)
  | None => false
  end.

(** ** [renderChartForType]: the lines of the individual participants *)

(** The local array [rankedParticipants]: the participants of the type,
    by [agiDays], cut to four. *)
Definition rankedParticipants (type : string) (state : State.t)
    : list Participant.t :=
  let participants :=
    filter (fun entry => String.eqb (Participant.type entry) type)
      (State.participants state) in
  firstn 4 (JsArray.sort compareByAgiDays participants).

(** [a.day - b.day] on performance points. *)
Definition compareByPointDay (a b : PerformancePoint.t) : Z :=
  orZero (dayDiff (PerformancePoint.day a) (PerformancePoint.day b)).

(** A dataset pushed for a participant: its label, its points ([x] the
    day, [y] the solved value) and the index of its colour in [colors]. *)
Module ParticipantLine.
Record t := mk {
  label : string;
  data : list PerformancePoint.t;
  color : nat
}.
End ParticipantLine.

(** The callback of [rankedParticipants.forEach]: nothing is pushed for a
    participant without performance points. *)
Definition participantLine (index : nat) (participant : Participant.t)
    : list ParticipantLine.t :=
  let sortedPerf :=
    JsArray.sort compareByPointDay
      (orEmpty (Participant.performance participant)) in
  match sortedPerf with
  | [] => []
  | _ => [ParticipantLine.mk (Participant.name participant) sortedPerf
            (index mod 6)%nat]
  end.

Fixpoint participantLinesFrom (index : nat) (ranked : list Participant.t)
    : list ParticipantLine.t :=
  match ranked with
  | [] => []
  | participant :: rest =>
      (participantLine index participant
       ++ participantLinesFrom (S index) rest)%list
  end.

(** The datasets [renderChartForType] pushes for individual
    participants. *)
Definition participantLines (type : string) (state : State.t)
    : list ParticipantLine.t :=
  participantLinesFrom 0 (rankedParticipants type state).

(** The participant has at least one performance point. *)
Definition hasPerformance (participant : Participant.t) : bool :=
  nonEmpty (orEmpty (Participant.performance participant)).

(** ** [renderDailyList] and [initModal]: the output cache *)

(** [`${challenge.id}-${prediction.participantId}`]. *)
Definition outputKey (challenge : DailyChallenge.t)
    (prediction : Prediction.t) : string :=
  DailyChallenge.id challenge ++ "-" ++ Prediction.participantId prediction.

(** [prediction.output || "No output captured."]. *)
Definition outputOrDefault (prediction : Prediction.t) : string :=
  match Prediction.output prediction with
  | Some text => if String.eqb text "" then "No output captured." else text
  | None => "No output captured."
  end.

Definition cachePrediction (challenge : DailyChallenge.t)
    (outputCache : JsMap.t (K := string) (V := string))
    (prediction : Prediction.t) : JsMap.t (K := string) (V := string) :=
  JsMap.set string_dec (outputKey challenge prediction)
    (outputOrDefault prediction) outputCache.

Definition cacheChallenge
    (outputCache : JsMap.t (K := string) (V := string))
    (challenge : DailyChallenge.t) : JsMap.t (K := string) (V := string) :=
  fold_left (cachePrediction challenge)
    (orEmpty (DailyChallenge.predictions challenge)) outputCache.

(** [outputCache] once [renderDailyList] has run: cleared, then filled
    challenge by challenge. *)
Definition renderDailyList_outputCache (state : State.t)
    : JsMap.t (K := string) (V := string) :=
  fold_left cacheChallenge (selectChallenges state) JsMap.empty.

(** [outputCache.get(key) || "No output recorded."], the text the modal
    of [initModal] shows. *)
Definition modalOutput (outputCache : JsMap.t (K := string) (V := string))
    (key : string) : string :=
  match JsMap.get string_dec key outputCache with
  | Some text => if String.eqb text "" then "No output recorded." else text
  | None => "No output recorded."
  end.

(** The predictions [renderDailyList] goes through, each with its
    challenge, in the order of the page. *)
Definition renderedPredictions (state : State.t)
    : list (DailyChallenge.t * Prediction.t) :=
  flat_map (fun challenge =>
              map (pair challenge)
                (orEmpty (DailyChallenge.predictions challenge)))
    (selectChallenges state).

(** ** [applyData] *)

(** The payload: a field is [None] when it is missing or, for the three
    lists, when it is not an array. *)
Module Payload.
Record t := mk {
  currentDay : option Z;
  calendarDays : option (list CalendarDayRecord.t);
  dailyChallenges : option (list DailyChallenge.t);
  participants : option (list Participant.t)
}.
End Payload.

Definition applyData (data : Payload.t) : State.t :=
  State.mk (Payload.currentDay data)
    (orEmpty (Payload.calendarDays data))
    (orEmpty (Payload.dailyChallenges data))
    (orEmpty (Payload.participants data)).

(** ** [formatRelative] *)

(** [Math.round(n / d)] for a positive [d]: the nearest integer, halves
    upwards. *)
Definition mathRoundDiv (n d : Z) : Z := (2 * n + d) / (2 * d).

(** The text of [formatRelative]: ["now"], or a count with its unit and
    plural mark. *)
Inductive Relative :=
  | RelNow
  | RelMinutes (minutes : Z) (plural : bool)
  | RelHours (hours : Z) (plural : bool)
  | RelDays (days : Z) (plural : bool).

(** [formatRelative], on [diff = date.getTime() - Date.now()], a number of
    milliseconds. *)
Definition formatRelative (diff : Z) : Relative :=
  let minutes := mathRoundDiv diff 60000 in
  if minutes <=? 0 then RelNow
  else if minutes <? 60 then RelMinutes minutes (negb (minutes =? 1))
  else
    let hours := mathRoundDiv minutes 60 in
    if hours <? 24 then RelHours hours (negb (hours =? 1))
    else
      let days := mathRoundDiv hours 24 in
      RelDays days (negb (days =? 1)).

(** ** [validateSubmission] *)

(** The fields of a submitted form the validation reads; [None] is a
    field the form does not have.  A string is the list of its code
    units, of a type [C] left open. *)
Module FormData.
Record t {C : Type} := mk {
  answers : option (list C);
  correct : option (list C);
  endpoint : option (list C);
  repo : option (list C)
}.
Arguments t : clear implicits.
End FormData.

Module Validation.
Record t := mk { isValid : bool; message : string }.
End Validation.

Section Submission.
Context {C : Type}.
Variable C_eq_dec : forall a b : C, {a = b} + {a <> b}.
(** The white space [trim] removes, and the code unit of [","]. *)
Variable isWhiteSpace : C -> bool.
Variable comma : C.

Fixpoint dropWhile (f : C -> bool) (s : list C) : list C :=
  match s with
  | [] => []
  | c :: s' => if f c then dropWhile f s' else s
  end.

(** [s.trim()]. *)
Definition trim (s : list C) : list C :=
  rev (dropWhile isWhiteSpace (rev (dropWhile isWhiteSpace s))).

(** [s.split(",")]. *)
Fixpoint split (s : list C) : list (list C) :=
  match s with
  | [] => [[]]
  | c :: s' =>
      if C_eq_dec c comma then [] :: split s'
      else
        match split s' with
        | piece :: pieces => (c :: piece) :: pieces
        | [] => [[c]]
        end
  end.

(** [options.includes(x)], [x] being [undefined] when [None]. *)
Definition includes (options : list (list C)) (x : option (list C)) : bool :=
  match x with
  | Some s => existsb (fun o => if list_eq_dec C_eq_dec o s then true else false) options
  | None => false
  end.

(** [!field?.trim()]. *)
Definition blank (field : option (list C)) : bool :=
  match field with
  | Some s => negb (nonEmpty (trim s))
  | None => true
  end.

(** The [options] of a challenge form. *)
Definition answerOptions (payload : FormData.t C) : list (list C) :=
  filter nonEmpty (map trim (split (orEmpty (FormData.answers payload)))).

Definition validateSubmission (formType : string) (payload : FormData.t C)
    : Validation.t :=
  if String.eqb formType "challenge" then
    let options := answerOptions payload in
    if negb (nonEmpty options) then
      Validation.mk false "Please provide at least one answer option."
    else if negb (includes options (option_map trim (FormData.correct payload))) then
      Validation.mk false "Correct answer must be one of the provided options."
    else
      Validation.mk true "Challenge submitted. We'll curate for the next rotation."
  else if String.eqb formType "llm" then
    if blank (FormData.endpoint payload) then
      Validation.mk false "API endpoint is required."
    else
      Validation.mk true "LLM API received. Our ops team will verify connectivity soon."
  else if String.eqb formType "agent" then
    if blank (FormData.repo payload) then
      Validation.mk false "Repository URL is required for agent submissions."
    else
      Validation.mk true "Agent system queued. We'll run sandbox validation ahead of evaluation."
  else
    Validation.mk true "Submission received! We'll review it shortly.".

End Submission.

(** Strings of bytes, for the examples of form validation: the white
    space of the ASCII range, and the comma. *)
Definition asciiWhiteSpace (c : Ascii.ascii) : bool :=
  existsb (Ascii.eqb c) [" "; "009"; "010"; "011"; "012"; "013"]%char.

Definition challengeForm (answers correct : string) : FormData.t Ascii.ascii :=
  @FormData.mk Ascii.ascii (Some (list_ascii_of_string answers))
    (Some (list_ascii_of_string correct)) None None.

Definition llmForm (endpoint : string) : FormData.t Ascii.ascii :=
  @FormData.mk Ascii.ascii None None (Some (list_ascii_of_string endpoint)) None.

(** * Properties *)

(** ** The sort: a permutation, ordered by the key, stable *)

Section SortFacts.
Context {A : Type}.
Variable cmp : A -> A -> Z.
Variable key : A -> Z.

Lemma insert_perm (x : A) (l : list A) :
  Permutation (JsArray.insert cmp x l) (x :: l).
Proof.
  induction l as [|y l IH]; simpl; [reflexivity|].
  destruct (0 <? cmp x y); [|reflexivity].
  rewrite IH. apply perm_swap.
Qed.

Lemma sort_perm (l : list A) : Permutation (JsArray.sort cmp l) l.
Proof.
  induction l as [|x l IH]; simpl; [constructor|].
  rewrite insert_perm. now constructor.
Qed.

Lemma sort_length (l : list A) :
  List.length (JsArray.sort cmp l) = List.length l.
Proof. apply Permutation_length, sort_perm. Qed.

Lemma sort_In (l : list A) (x : A) : In x (JsArray.sort cmp l) <-> In x l.
Proof.
  split; apply Permutation_in; [|symmetry]; apply sort_perm.
Qed.

Lemma insert_sorted (x : A) (l : list A) :
  (forall y, In y l -> cmp x y = key x - key y) ->
  StronglySorted (fun a b => key a <= key b) l ->
  StronglySorted (fun a b => key a <= key b) (JsArray.insert cmp x l).
Proof.
  induction l as [|y l IH]; intros Hc Hs; simpl.
  - repeat constructor.
  - inversion Hs as [|? ? Hs' Hy]; subst.
    pose proof (Hc y (or_introl eq_refl)) as Hxy.
    destruct (0 <? cmp x y) eqn:E.
    + apply Z.ltb_lt in E. constructor.
      * apply IH; [intros; apply Hc; now right | assumption].
      * rewrite Forall_forall in *. intros z Hz.
        apply (Permutation_in _ (insert_perm x l)) in Hz.
        destruct Hz as [<-|Hz]; [lia | now apply Hy].
    + apply Z.ltb_ge in E. constructor; [assumption|].
      constructor; [lia|].
      rewrite Forall_forall in *. intros z Hz. specialize (Hy z Hz). lia.
Qed.

Lemma sort_sorted (l : list A) :
  (forall a b, In a l -> In b l -> cmp a b = key a - key b) ->
  StronglySorted (fun a b => key a <= key b) (JsArray.sort cmp l).
Proof.
  induction l as [|x l IH]; intros Hc; [constructor|].
  cbn [JsArray.sort fold_right]. fold (JsArray.sort cmp l).
  apply insert_sorted.
  - intros y Hy. apply Hc; [now left | right; now apply (proj1 (sort_In _ _)) in Hy].
  - apply IH. intros; apply Hc; now right.
Qed.

Lemma insert_stable (k : Z) (x : A) (l : list A) :
  (forall y, In y l -> cmp x y = key x - key y) ->
  filter (fun a => key a =? k) (JsArray.insert cmp x l)
  = filter (fun a => key a =? k) (x :: l).
Proof.
  induction l as [|y l IH]; intros Hc; [reflexivity|].
  pose proof (Hc y (or_introl eq_refl)) as Hxy.
  cbn [JsArray.insert]. destruct (0 <? cmp x y) eqn:E; [|reflexivity].
  apply Z.ltb_lt in E.
  cbn [filter]. rewrite IH by (intros; apply Hc; now right).
  cbn [filter].
  destruct (key y =? k) eqn:Ey, (key x =? k) eqn:Ex; try reflexivity.
  apply Z.eqb_eq in Ey, Ex. lia.
Qed.

Lemma sort_stable (k : Z) (l : list A) :
  (forall a b, In a l -> In b l -> cmp a b = key a - key b) ->
  filter (fun a => key a =? k) (JsArray.sort cmp l)
  = filter (fun a => key a =? k) l.
Proof.
  induction l as [|x l IH]; intros Hc; [reflexivity|].
  cbn [JsArray.sort fold_right]. fold (JsArray.sort cmp l).
  rewrite insert_stable.
  - cbn [filter]. rewrite IH by (intros; apply Hc; now right). reflexivity.
  - intros y Hy. apply Hc; [now left | right; now apply (proj1 (sort_In _ _)) in Hy].
Qed.

End SortFacts.

(** ** The map: lookups after [set], keys without repetition *)

Section MapFacts.
Context {K V : Type}.
Variable K_eq_dec : forall a b : K, {a = b} + {a <> b}.

Lemma get_set_eq (k : K) (v : V) (m : JsMap.t) :
  JsMap.get K_eq_dec k (JsMap.set K_eq_dec k v m) = Some v.
Proof.
  induction m as [|[k' v'] m IH]; simpl.
  - destruct (K_eq_dec k k); congruence.
  - destruct (K_eq_dec k k') as [->|Hn]; simpl.
    + destruct (K_eq_dec k' k'); congruence.
    + destruct (K_eq_dec k k'); congruence.
Qed.

Lemma get_set_neq (k k' : K) (v : V) (m : JsMap.t) :
  k <> k' ->
  JsMap.get K_eq_dec k (JsMap.set K_eq_dec k' v m) = JsMap.get K_eq_dec k m.
Proof.
  intros Hn. induction m as [|[k2 v2] m IH]; simpl.
  - destruct (K_eq_dec k k'); congruence.
  - destruct (K_eq_dec k' k2) as [->|Hn2]; simpl.
    + destruct (K_eq_dec k k2); congruence.
    + destruct (K_eq_dec k k2); congruence.
Qed.

Lemma keys_set (k : K) (v : V) (m : JsMap.t) :
  JsMap.keys (JsMap.set K_eq_dec k v m)
  = if JsMap.has K_eq_dec k m then JsMap.keys m else (JsMap.keys m ++ [k])%list.
Proof.
  unfold JsMap.has, JsMap.keys.
  induction m as [|[k' v'] m IH]; simpl; [reflexivity|].
  destruct (K_eq_dec k k') as [->|Hn]; simpl; [reflexivity|].
  rewrite IH.
  destruct (JsMap.get K_eq_dec k m); reflexivity.
Qed.

Lemma get_None_keys (k : K) (m : JsMap.t (V := V)) :
  JsMap.get K_eq_dec k m = None <-> ~ In k (JsMap.keys m).
Proof.
  induction m as [|[k' v'] m IH]; simpl; [tauto|].
  destruct (K_eq_dec k k') as [->|Hn].
  - split; [discriminate | intros H; exfalso; apply H; now left].
  - rewrite IH. split; [intros H [E|E]; [congruence | tauto] | tauto].
Qed.

Lemma get_Some_In (k : K) (v : V) (m : JsMap.t) :
  JsMap.get K_eq_dec k m = Some v -> In (k, v) m.
Proof.
  induction m as [|[k' v'] m IH]; simpl; [discriminate|].
  destruct (K_eq_dec k k') as [->|Hn]; [intros [= ->]; now left | auto].
Qed.

Lemma In_get_Some (k : K) (v : V) (m : JsMap.t) :
  NoDup (JsMap.keys m) -> In (k, v) m -> JsMap.get K_eq_dec k m = Some v.
Proof.
  induction m as [|[k' v'] m IH]; simpl; [tauto|].
  intros Hnd [E|Hin]; inversion Hnd as [|? ? Hk Hnd']; subst.
  - inversion E; subst. destruct (K_eq_dec k k); congruence.
  - destruct (K_eq_dec k k') as [->|Hn]; [|auto].
    exfalso. apply Hk. change k' with (fst (k', v)). now apply in_map.
Qed.

Lemma NoDup_keys_set (k : K) (v : V) (m : JsMap.t) :
  NoDup (JsMap.keys m) -> NoDup (JsMap.keys (JsMap.set K_eq_dec k v m)).
Proof.
  intros Hnd. rewrite keys_set. unfold JsMap.has.
  destruct (JsMap.get K_eq_dec k m) eqn:E; [assumption|].
  apply get_None_keys in E.
  apply NoDup_rev in Hnd. rewrite <- (rev_involutive (_ ++ _)%list).
  apply NoDup_rev. rewrite rev_app_distr. simpl. constructor; [|assumption].
  now rewrite <- in_rev.
Qed.

Lemma In_set (k k' : K) (v v' : V) (m : JsMap.t) :
  In (k', v') (JsMap.set K_eq_dec k v m) ->
  (k', v') = (k, v) \/ In (k', v') m.
Proof.
  induction m as [|[k2 v2] m IH]; simpl.
  - intros [E|[]]; now left.
  - destruct (K_eq_dec k k2) as [->|Hn]; simpl.
    + intros [E|H]; [left; congruence | right; now right].
    + intros [E|H]; [right; now left|].
      destruct (IH H); [now left | right; now right].
Qed.

Lemma set_fold_absent (k : K) (es : list (K * V)) (m : JsMap.t) :
  (forall e, In e es -> fst e <> k) ->
  JsMap.get K_eq_dec k
    (fold_left (fun m e => JsMap.set K_eq_dec (fst e) (snd e) m) es m)
  = JsMap.get K_eq_dec k m.
Proof.
  revert m. induction es as [|e es IH]; intros m H; simpl; [reflexivity|].
  rewrite IH by (intros; apply H; now right).
  apply get_set_neq. intros E. now apply (H e (or_introl eq_refl)).
Qed.

Lemma set_fold_last (k : K) (v : V) (es1 es2 : list (K * V)) (m : JsMap.t) :
  (forall e, In e es2 -> fst e <> k) ->
  JsMap.get K_eq_dec k
    (fold_left (fun m e => JsMap.set K_eq_dec (fst e) (snd e) m)
       (es1 ++ (k, v) :: es2) m)
  = Some v.
Proof.
  intros H. rewrite fold_left_app. simpl.
  rewrite set_fold_absent by assumption. apply get_set_eq.
Qed.

End MapFacts.

(** ** Streaks *)

Lemma rev_case {A : Type} (l : list A) :
  l = [] \/ exists l' y, l = (l' ++ [y])%list.
Proof.
  induction l as [|y l' _] using rev_ind; [now left | right; now exists l', y].
Qed.

Lemma snoc_split {A : Type} (a seg b p : list A) (x : A) :
  (a ++ seg ++ b)%list = (p ++ [x])%list ->
  (exists b', b = (b' ++ [x])%list /\ p = (a ++ seg ++ b')%list) \/
  (b = [] /\
   ((seg = [] /\ a = (p ++ [x])%list) \/
    exists seg', seg = (seg' ++ [x])%list /\ p = (a ++ seg')%list)).
Proof.
  intros H. destruct (rev_case b) as [->|[b' [y ->]]].
  - right. split; [reflexivity|]. rewrite app_nil_r in H.
    destruct (rev_case seg) as [->|[seg' [y ->]]].
    + left. rewrite app_nil_r in H. now split.
    + right. rewrite app_assoc in H. apply app_inj_tail in H as [H ->].
      exists seg'. now split.
  - left. rewrite !app_assoc in H. apply app_inj_tail in H as [H ->].
    exists b'. split; [reflexivity|]. now rewrite <- app_assoc in H.
Qed.

Lemma trailingRun_nil : trailingRun [] 0.
Proof. exists [], []. repeat split; [constructor | now left]. Qed.

Lemma trailingRun_snoc_agi s n x :
  trailingRun s n -> isAgi x = true -> trailingRun (s ++ [x]) (S n).
Proof.
  intros (pre & suf & -> & Hall & Hlen & Hpre) Hx.
  exists pre, (suf ++ [x])%list. repeat split.
  - now rewrite app_assoc.
  - apply Forall_app. split; [assumption | now constructor].
  - rewrite length_app. simpl. lia.
  - assumption.
Qed.

Lemma trailingRun_snoc_other s x :
  isAgi x = false -> trailingRun (s ++ [x]) 0.
Proof.
  intros Hx. exists (s ++ [x])%list, []. repeat split.
  - now rewrite app_nil_r.
  - constructor.
  - right. now exists s, x.
Qed.

Lemma trailingRun_suffix_le s n a suf :
  trailingRun s n -> s = (a ++ suf)%list -> allAgi suf ->
  (List.length suf <= n)%nat.
Proof.
  intros (pre & suf0 & -> & Hall & <- & Hpre) Heq Hsuf.
  apply app_eq_app in Heq as [l [[-> ->]|[-> ->]]].
  - destruct (rev_case l) as [->|[l' [y ->]]]; [simpl; lia|].
    destruct Hpre as [Hpre|(q & y' & Hpre & Hy')].
    + apply app_eq_nil in Hpre as [_ Hpre].
      now apply app_eq_nil in Hpre as [_ Hpre].
    + rewrite app_assoc in Hpre. apply app_inj_tail in Hpre as [_ ->].
      apply Forall_app in Hsuf as [Hsuf _].
      apply Forall_app in Hsuf as [_ Hsuf].
      inversion Hsuf; subst. congruence.
  - rewrite length_app. lia.
Qed.

Lemma trailingRun_unique s n m : trailingRun s n -> trailingRun s m -> n = m.
Proof.
  intros Hn Hm.
  assert (n <= m)%nat.
  { destruct Hn as (pre & suf & E & Hall & <- & _).
    now apply (trailingRun_suffix_le s m pre suf). }
  assert (m <= n)%nat.
  { destruct Hm as (pre & suf & E & Hall & <- & _).
    now apply (trailingRun_suffix_le s n pre suf). }
  lia.
Qed.

Lemma isRun_snoc s seg x : isRun s seg -> isRun (s ++ [x]) seg.
Proof.
  intros (a & b & -> & Hall). exists a, (b ++ [x])%list.
  split; [now rewrite <- !app_assoc | assumption].
Qed.

(** The loop invariant of the [forEach] of [computeStreaks]. *)
Lemma streak_fold_inv (s : list CalendarDayRecord.t) :
  let acc := fold_left streakStep s (0%nat, 0%nat) in
  longestRun s (fst acc) /\ trailingRun s (snd acc) /\
  (snd acc <= fst acc)%nat.
Proof.
  induction s as [|x s IH] using rev_ind; simpl.
  - split; [|split; [apply trailingRun_nil | lia]].
    split.
    + exists []. split; [|reflexivity]. exists [], []. split; [reflexivity | constructor].
    + intros seg (a & b & E & _). symmetry in E.
      apply app_eq_nil in E as [_ E]. apply app_eq_nil in E as [-> _].
      simpl; lia.
  - rewrite fold_left_app. simpl in *.
    destruct (fold_left streakStep s (0%nat, 0%nat)) as [lg rn].
    simpl in IH. destruct IH as ((Hex & Hmax) & Htr & Hle).
    unfold streakStep. destruct (isAgi x) eqn:Hx.
    + assert (Hnew : forall seg, isRun (s ++ [x]) seg ->
                (List.length seg <= Nat.max lg (S rn))%nat).
      { intros seg (a & b & E & Hall). symmetry in E.
        apply snoc_split in E
          as [(b' & -> & ->)|(-> & [(-> & _)|(seg' & -> & ->)])].
        - assert (List.length seg <= lg)%nat by (apply Hmax; now exists a, b').
          lia.
        - simpl; lia.
        - apply Forall_app in Hall as [Hall _].
          pose proof (trailingRun_suffix_le _ _ a seg' Htr eq_refl Hall).
          rewrite length_app. simpl. lia. }
      destruct (Nat.ltb lg (S rn)) eqn:E; simpl.
      * apply Nat.ltb_lt in E. split; [|split; [now apply trailingRun_snoc_agi | lia]].
        split.
        -- destruct Htr as (pre & suf & -> & Hall & Hlen & _).
           exists (suf ++ [x])%list. split.
           ++ exists pre, []. split; [now rewrite app_nil_r, app_assoc|].
              apply Forall_app. split; [assumption | now constructor].
           ++ rewrite length_app. simpl. lia.
        -- intros seg Hseg. specialize (Hnew seg Hseg). lia.
      * apply Nat.ltb_ge in E. split; [|split; [now apply trailingRun_snoc_agi | lia]].
        split.
        -- destruct Hex as (seg & Hseg & Hlen). exists seg.
           split; [now apply isRun_snoc | assumption].
        -- intros seg Hseg. specialize (Hnew seg Hseg). lia.
    + simpl. split; [|split; [now apply trailingRun_snoc_other | lia]].
      split.
      * destruct Hex as (seg & Hseg & Hlen). exists seg.
        split; [now apply isRun_snoc | assumption].
      * intros seg (a & b & E & Hall). symmetry in E.
        apply snoc_split in E
          as [(b' & -> & ->)|(-> & [(-> & _)|(seg' & -> & ->)])].
        -- apply Hmax. now exists a, b'.
        -- simpl; lia.
        -- apply Forall_app in Hall as [_ Hall]. inversion Hall; subst. congruence.
Qed.

(** The backward loop counts the trailing run of the part it has not yet
    left behind. *)
Lemma currentLoop_spec (sorted : list CalendarDayRecord.t) (n c : nat) :
  (n <= List.length sorted)%nat ->
  exists k, currentLoop sorted n c = (c + k)%nat /\
            trailingRun (firstn n sorted) k.
Proof.
  revert c. induction n as [|i IH]; intros c Hn; simpl currentLoop.
  - exists 0%nat. split; [lia | apply trailingRun_nil].
  - destruct (nth_error sorted i) as [entry|] eqn:E.
    + assert (Hf : firstn (S i) sorted = (firstn i sorted ++ [entry])%list).
      { clear -E. revert sorted E. induction i as [|i IH]; intros [|y l] E;
          simpl in *; try discriminate.
        - now inversion E.
        - f_equal. now apply IH. }
      rewrite Hf. destruct (isAgi entry) eqn:Hx.
      * destruct (IH (S c)) as (k & Hk & Htr); [lia|].
        exists (S k). split; [lia | now apply trailingRun_snoc_agi].
      * exists 0%nat. split; [lia | now apply trailingRun_snoc_other].
    + apply nth_error_None in E. lia.
Qed.

Lemma computeStreaks_unfold (records : list CalendarDayRecord.t) :
  computeStreaks records
  = let sorted := JsArray.sort compareByDay records in
    StreakResult.mk (currentLoop sorted (List.length sorted) 0)
                    (fst (fold_left streakStep sorted (0%nat, 0%nat))).
Proof. destruct records; reflexivity. Qed.

Lemma computeStreaks_current (records : list CalendarDayRecord.t) :
  trailingRun (JsArray.sort compareByDay records)
              (StreakResult.current (computeStreaks records)).
Proof.
  rewrite computeStreaks_unfold. cbv zeta. cbn [StreakResult.current].
  destruct (currentLoop_spec (JsArray.sort compareByDay records)
              (List.length (JsArray.sort compareByDay records)) 0 (le_n _))
    as (k & -> & Hk).
  now rewrite firstn_all in Hk.
Qed.

Lemma compareByDay_key (l : list CalendarDayRecord.t) :
  Forall numericDay l ->
  forall a b, In a l -> In b l -> compareByDay a b = dayKey a - dayKey b.
Proof.
  intros Hnum a b Ha Hb. rewrite Forall_forall in Hnum.
  pose proof (Hnum a Ha) as Na. pose proof (Hnum b Hb) as Nb.
  unfold numericDay, compareByDay, dayKey in *.
  destruct (CalendarDayRecord.day a), (CalendarDayRecord.day b);
    simpl; congruence.
Qed.

(** C1.  [computeStreaks] works on [sorted], the records in day-ascending
    order: a permutation of the input which, when every day is a number,
    is ordered by day and keeps records of one day in their input order.
    [current] is the length of the trailing run of ['agi'] records of
    [sorted] (so it is 0 when the last record is not ['agi']), [longest]
    is the greatest length of a contiguous run of ['agi'] records of
    [sorted]; a run is a matter of neighbouring records only, so a gap in
    the day numbers does not end it.  The input
    [1:agi, 2:agi, 3:missed, 4:agi] gives [{current: 1, longest: 2}], and
    the empty input [{current: 0, longest: 0}]. *)
Theorem computeStreaks_runs (records : list CalendarDayRecord.t) :
  let sorted := JsArray.sort compareByDay records in
  let result := computeStreaks records in
  Permutation sorted records /\
  (Forall numericDay records ->
     StronglySorted (fun a b => dayKey a <= dayKey b) sorted /\
     forall d, filter (fun a => dayKey a =? d) sorted
               = filter (fun a => dayKey a =? d) records) /\
  trailingRun sorted (StreakResult.current result) /\
  (forall l last, sorted = (l ++ [last])%list -> isAgi last = false ->
     StreakResult.current result = 0%nat) /\
  longestRun sorted (StreakResult.longest result) /\
  computeStreaks gapExample = StreakResult.mk 2 2 /\
  computeStreaks streakExample = StreakResult.mk 1 2 /\
  computeStreaks [] = StreakResult.mk 0 0.
Proof.
  intros sorted result.
  assert (Hcur : trailingRun sorted (StreakResult.current result))
    by apply computeStreaks_current.
  split; [apply sort_perm|].
  split.
  { intros Hnum. split.
    - apply sort_sorted. now apply compareByDay_key.
    - intros d. apply sort_stable. now apply compareByDay_key. }
  split; [exact Hcur|].
  split.
  { intros l last E Hlast.
    apply (trailingRun_unique sorted); [exact Hcur|].
    rewrite E. now apply trailingRun_snoc_other. }
  split.
  { subst result. rewrite computeStreaks_unfold. cbv zeta.
    cbn [StreakResult.longest]. apply streak_fold_inv. }
  repeat split; reflexivity.
Qed.

Lemma computeStreaks_runs_witness :
  StronglySorted (fun a b => dayKey a <= dayKey b)
    (JsArray.sort compareByDay streakExample).
Proof.
  destruct (computeStreaks_runs streakExample) as (_ & H & _).
  apply H. repeat constructor; discriminate.
Defined.

(** C2.  For every sequence of calendar day records the result of
    [computeStreaks] has [longest >= current]. *)
Theorem computeStreaks_longest_ge_current (records : list CalendarDayRecord.t) :
  (StreakResult.current (computeStreaks records)
   <= StreakResult.longest (computeStreaks records))%nat.
Proof.
  pose proof (computeStreaks_current records) as Hcur.
  rewrite computeStreaks_unfold in *. cbv zeta in *.
  cbn [StreakResult.current StreakResult.longest] in *.
  destruct (streak_fold_inv (JsArray.sort compareByDay records))
    as (_ & Htr & Hle).
  now rewrite (trailingRun_unique _ _ _ Hcur Htr).
Qed.

(** ** Record normaliser *)

Lemma dedupe_fold_absent (d : Z) (l : list CalendarDayRecord.t) (m : JsMap.t) :
  (forall r, In r l -> CalendarDayRecord.day r <> Some d) ->
  JsMap.get Z.eq_dec d (fold_left dedupeStep l m) = JsMap.get Z.eq_dec d m.
Proof.
  revert m. induction l as [|r l IH]; intros m H; simpl; [reflexivity|].
  rewrite IH by (intros; apply H; now right).
  unfold dedupeStep. pose proof (H r (or_introl eq_refl)) as Hr.
  destruct (CalendarDayRecord.day r) as [k|]; [|reflexivity].
  apply get_set_neq. congruence.
Qed.

Lemma dedupe_fold_last (d : Z) (l1 l2 : list CalendarDayRecord.t)
    (r : CalendarDayRecord.t) (m : JsMap.t) :
  CalendarDayRecord.day r = Some d ->
  (forall r', In r' l2 -> CalendarDayRecord.day r' <> Some d) ->
  JsMap.get Z.eq_dec d (fold_left dedupeStep (l1 ++ r :: l2) m) = Some r.
Proof.
  intros Hr Hl2. rewrite fold_left_app. simpl.
  rewrite dedupe_fold_absent by assumption.
  unfold dedupeStep at 1. rewrite Hr. apply get_set_eq.
Qed.

Lemma dedupe_fold_normalised (calendarDays l : list CalendarDayRecord.t)
    (m : JsMap.t) :
  incl l calendarDays -> normalised calendarDays m ->
  normalised calendarDays (fold_left dedupeStep l m).
Proof.
  revert m. induction l as [|r l IH]; intros m Hincl Hm; simpl; [assumption|].
  apply IH; [intros x Hx; apply Hincl; now right|].
  unfold dedupeStep. destruct (CalendarDayRecord.day r) as [d|] eqn:Hr;
    [|assumption].
  destruct Hm as [Hnd Hin]. split; [now apply NoDup_keys_set|].
  intros k v H. apply In_set in H as [[= -> ->]|H]; [|now apply Hin].
  split; [assumption | apply Hincl; now left].
Qed.

Lemma dedupeCalendarMap_normalised (calendarDays : list CalendarDayRecord.t) :
  normalised calendarDays (dedupeCalendarMap calendarDays).
Proof.
  apply dedupe_fold_normalised; [apply incl_refl|].
  split; [constructor | intros k v []].
Qed.

(** C4.  The map built by [dedupeCalendarMap] has one entry per day
    number; every entry is a record of the input filed under its own
    numeric day, so a record whose day is not a number is nowhere in the
    map (and nothing fails on it); a day no record carries has no entry;
    and under each day the map holds the last record of the input with
    that day. *)
Theorem dedupeCalendarMap_last_seen_wins (calendarDays : list CalendarDayRecord.t) :
  let map := dedupeCalendarMap calendarDays in
  NoDup (JsMap.keys map) /\
  (forall k v, In (k, v) (JsMap.entries map) ->
     CalendarDayRecord.day v = Some k /\ In v calendarDays) /\
  (forall r, CalendarDayRecord.day r = None -> ~ In r (JsMap.values map)) /\
  (forall d, (forall r, In r calendarDays -> CalendarDayRecord.day r <> Some d) ->
     JsMap.get Z.eq_dec d map = None) /\
  (forall l1 r l2 d,
     calendarDays = (l1 ++ r :: l2)%list ->
     CalendarDayRecord.day r = Some d ->
     (forall r', In r' l2 -> CalendarDayRecord.day r' <> Some d) ->
     JsMap.get Z.eq_dec d map = Some r).
Proof.
  intros map. destruct (dedupeCalendarMap_normalised calendarDays) as [Hnd Hin].
  split; [exact Hnd|]. split; [exact Hin|]. split; [|split].
  - intros r Hr Hv. apply in_map_iff in Hv as ([k v] & <- & Hkv).
    apply Hin in Hkv as [Hd _]. simpl in Hr. congruence.
  - intros d H. subst map. unfold dedupeCalendarMap.
    now rewrite dedupe_fold_absent.
  - intros l1 r l2 d -> Hr Hl2. now apply dedupe_fold_last.
Qed.

Lemma dedupeCalendarMap_last_seen_wins_witness :
  JsMap.get Z.eq_dec 1 (dedupeCalendarMap dedupeExample)
  = Some (calendarDay 1 Agi).
Proof.
  destruct (dedupeCalendarMap_last_seen_wins dedupeExample)
    as (_ & _ & _ & _ & H).
  apply (H [CalendarDayRecord.mk None (Some Agi) None None None;
            calendarDay 1 Pending; calendarDay 2 Missed]
           (calendarDay 1 Agi) [] 1).
  - reflexivity.
  - reflexivity.
  - intros r' [].
Defined.

Lemma dedupe_of_distinct_days (l : list CalendarDayRecord.t)
    (r : CalendarDayRecord.t) (d : Z) :
  NoDup (map CalendarDayRecord.day l) -> In r l ->
  CalendarDayRecord.day r = Some d ->
  JsMap.get Z.eq_dec d (dedupeCalendarMap l) = Some r.
Proof.
  intros Hnd Hin Hr. apply in_split in Hin as (l1 & l2 & ->).
  apply dedupe_fold_last; [assumption|].
  intros r' Hr' E. rewrite map_app in Hnd. simpl in Hnd.
  apply NoDup_remove_2 in Hnd. apply Hnd. apply in_or_app. right.
  rewrite Hr, <- E. now apply in_map.
Qed.

(** C3.  Normalising the day-ascending view of a normalisation gives the
    same day-to-record mapping: under every day number the second map
    holds what the first one holds. *)
Theorem dedupeCalendarMap_idempotent (calendarDays : list CalendarDayRecord.t)
    (d : Z) :
  JsMap.get Z.eq_dec d (dedupeCalendarMap (getCalendarRecords calendarDays))
  = JsMap.get Z.eq_dec d (dedupeCalendarMap calendarDays).
Proof.
  destruct (dedupeCalendarMap_normalised calendarDays) as [Hnd Hin].
  set (m := dedupeCalendarMap calendarDays) in *.
  unfold getCalendarRecords. fold m.
  assert (Hdays : NoDup (map CalendarDayRecord.day
                          (JsArray.sort compareByDay (JsMap.values m)))).
  { apply (Permutation_NoDup
             (l := map CalendarDayRecord.day (JsMap.values m))).
    - apply Permutation_map. symmetry. apply sort_perm.
    - unfold JsMap.values. rewrite map_map.
      rewrite (map_ext_in _ (fun e => Some (fst e))).
      + rewrite <- map_map. apply Finite.Injective_map_NoDup; [|exact Hnd].
        intros a b E. congruence.
      + intros [k v] H. simpl. now apply Hin in H as [-> _]. }
  destruct (JsMap.get Z.eq_dec d m) as [r|] eqn:E.
  - apply get_Some_In in E. pose proof (Hin _ _ E) as [Hr _].
    apply dedupe_of_distinct_days; [assumption| |assumption].
    apply sort_In. unfold JsMap.values.
    change r with (snd (d, r)). now apply in_map.
  - unfold dedupeCalendarMap. rewrite dedupe_fold_absent; [reflexivity|].
    intros r Hr Hd. apply (proj1 (sort_In _ _ _)) in Hr.
    apply in_map_iff in Hr as ([k v] & <- & Hkv). simpl in Hd.
    pose proof (Hin _ _ Hkv) as [Hk _].
    assert (k = d) by congruence. subst k.
    apply (In_get_Some Z.eq_dec) in Hkv; [|assumption]. congruence.
Qed.

(** ** Leaderboard ranker *)

Lemma StronglySorted_weaken {A : Type} (R R' : A -> A -> Prop) (l : list A) :
  (forall a b, R a b -> R' a b) -> StronglySorted R l -> StronglySorted R' l.
Proof.
  intros HR. induction 1 as [|a l Hs IH Ha]; constructor; [assumption|].
  eapply Forall_impl; [|exact Ha]. intros b. apply HR.
Qed.

(** C5.  The leaderboard lists every participant once, in descending
    order of [agiDays] (a missing value counting as 0), and participants
    with equal [agiDays] stay in their input order; the input
    [A:5, B:5, C:7] is ranked [C, A, B]. *)
Theorem renderLeaderboard_stable_ranking (state : State.t) :
  let sorted := renderLeaderboard_sorted state in
  Permutation sorted (State.participants state) /\
  StronglySorted
    (fun a b => orZero (Participant.agiDays b) <= orZero (Participant.agiDays a))
    sorted /\
  (forall k,
     filter (fun p => orZero (Participant.agiDays p) =? k) sorted
     = filter (fun p => orZero (Participant.agiDays p) =? k)
         (State.participants state)) /\
  map Participant.name (renderLeaderboard_sorted leaderboardExample)
  = ["C"; "A"; "B"].
Proof.
  intros sorted. subst sorted. unfold renderLeaderboard_sorted.
  set (key := fun p => - orZero (Participant.agiDays p)).
  assert (Hkey : forall a b : Participant.t,
             compareByAgiDays a b = key a - key b)
    by (intros; unfold compareByAgiDays, key; lia).
  split; [apply sort_perm|]. split; [|split].
  - apply (StronglySorted_weaken (fun a b => key a <= key b)).
    + unfold key. intros a b H. lia.
    + apply sort_sorted. intros; apply Hkey.
  - intros k.
    rewrite (filter_ext _ (fun p => key p =? - k))
      by (intros p; unfold key; destruct (Z.eqb_spec (orZero (Participant.agiDays p)) k),
            (Z.eqb_spec (- orZero (Participant.agiDays p)) (- k)); (reflexivity || lia)).
    rewrite (filter_ext (fun p => orZero (Participant.agiDays p) =? k)
               (fun p => key p =? - k))
      by (intros p; unfold key; destruct (Z.eqb_spec (orZero (Participant.agiDays p)) k),
            (Z.eqb_spec (- orZero (Participant.agiDays p)) (- k)); (reflexivity || lia)).
    apply sort_stable. intros; apply Hkey.
  - reflexivity.
Qed.

(** ** Challenge scorer *)

Lemma participantLookup_absent (participants : list Participant.t)
    (pid : string) :
  (forall p, In p participants -> Participant.id p <> Some pid) ->
  JsMap.get id_eq_dec (Some pid) (participantLookup participants) = None.
Proof.
  intros H. unfold participantLookup, JsMap.of_entries.
  rewrite set_fold_absent; [reflexivity|].
  intros e He. apply in_map_iff in He as (p & <- & Hp). simpl. now apply H.
Qed.

Lemma participantLookup_last (l1 l2 : list Participant.t) (p : Participant.t)
    (pid : string) :
  Participant.id p = Some pid ->
  (forall p', In p' l2 -> Participant.id p' <> Some pid) ->
  JsMap.get id_eq_dec (Some pid) (participantLookup (l1 ++ p :: l2)) = Some p.
Proof.
  intros Hp Hl2. unfold participantLookup, JsMap.of_entries.
  rewrite map_app. simpl. rewrite Hp. apply set_fold_last.
  intros e He. apply in_map_iff in He as (p' & <- & Hp'). simpl. now apply Hl2.
Qed.

Lemma participantLookup_In (participants : list Participant.t)
    (pid : string) (p : Participant.t) :
  JsMap.get id_eq_dec (Some pid) (participantLookup participants) = Some p ->
  In p participants /\ Participant.id p = Some pid.
Proof.
  unfold participantLookup, JsMap.of_entries.
  assert (G : forall (l : list Participant.t) (m : JsMap.t),
             (forall k v, In (k, v) m ->
                In v participants /\ Participant.id v = k) ->
             incl l participants ->
             let m' := fold_left
                         (fun m e => JsMap.set id_eq_dec (fst e) (snd e) m)
                         (map (fun entry => (Participant.id entry, entry)) l) m in
             forall k v, In (k, v) m' ->
               In v participants /\ Participant.id v = k).
  { induction l as [|x l IH]; intros m Hm Hincl; simpl; [exact Hm|].
    apply IH; [|intros y Hy; apply Hincl; now right].
    intros k v H. apply In_set in H as [[= -> ->]|H]; [|now apply Hm].
    split; [apply Hincl; now left | reflexivity]. }
  intros H. apply get_Some_In in H.
  apply (G participants JsMap.empty) in H;
    [assumption | intros k v [] | apply incl_refl].
Qed.

(** C9.  Resolving the participant of a prediction always gives a value:
    the participant filed under the prediction's [participantId] (the
    last one of the participant set with that id, hence the one with that
    id when ids are distinct), and the placeholder
    [{name: "Unknown", type: "LLM"}] when no participant has that id; so
    every shown challenge gets its card, with one item per prediction. *)
Theorem resolveParticipant_total (state : State.t) (prediction : Prediction.t) :
  let participants := State.participants state in
  let pid := Prediction.participantId prediction in
  let resolved := resolveParticipant (participantLookup participants) prediction in
  (forall l1 p l2, participants = (l1 ++ p :: l2)%list ->
     Participant.id p = Some pid ->
     (forall p', In p' l2 -> Participant.id p' <> Some pid) ->
     resolved = p) /\
  (forall p, NoDup (map Participant.id participants) ->
     In p participants -> Participant.id p = Some pid -> resolved = p) /\
  ((forall p, In p participants -> Participant.id p <> Some pid) ->
     resolved = placeholder) /\
  ((In resolved participants /\ Participant.id resolved = Some pid) \/
   resolved = placeholder) /\
  (Participant.name placeholder = "Unknown" /\
   Participant.type placeholder = "LLM") /\
  Forall2
    (fun challenge card =>
       let predictions := orEmpty (DailyChallenge.predictions challenge) in
       DailyCard.total card = List.length predictions /\
       map PredictionItem.label (DailyCard.items card)
       = map (fun prediction =>
                Participant.name
                  (resolveParticipant (participantLookup participants) prediction))
           predictions)
    (selectChallenges state) (renderDailyList state).
Proof.
  intros participants pid resolved.
  assert (Hlast : forall l1 p l2, participants = (l1 ++ p :: l2)%list ->
            Participant.id p = Some pid ->
            (forall p', In p' l2 -> Participant.id p' <> Some pid) ->
            resolved = p).
  { intros l1 p l2 E Hp Hl2. subst resolved. unfold resolveParticipant.
    fold pid. rewrite E. now rewrite participantLookup_last. }
  split; [exact Hlast|]. split; [|split; [|split; [|split]]].
  - intros p Hnd Hin Hp. pose proof Hin as Hs.
    apply in_split in Hs as (l1 & l2 & E).
    apply (Hlast l1 p l2 E Hp). intros p' Hp' Hid.
    rewrite E, map_app in Hnd. simpl in Hnd.
    apply NoDup_remove_2 in Hnd. apply Hnd. apply in_or_app. right.
    rewrite Hp, <- Hid. now apply in_map.
  - intros H. subst resolved. unfold resolveParticipant. fold pid.
    now rewrite participantLookup_absent.
  - subst resolved. unfold resolveParticipant. fold pid.
    destruct (JsMap.get id_eq_dec (Some pid) (participantLookup participants))
      as [p|] eqn:E; [left | now right].
    now apply participantLookup_In in E.
  - split; reflexivity.
  - unfold renderDailyList. fold participants.
    induction (selectChallenges state) as [|c cs IH]; simpl; constructor;
      [|exact IH].
    simpl. split; [reflexivity|]. now rewrite map_map.
Qed.

(** ** Intensity mapper *)

Lemma clamp_bounds (alpha : Q) :
  (0.12 <= Qmin (Qmax alpha 0.12) 0.95 <= 0.95)%Q.
Proof.
  split.
  - apply Q.min_glb; [apply Q.le_max_r | discriminate].
  - apply Q.le_min_r.
Qed.

Lemma accuracyRatio_range (correct : Z) : (0 <= accuracyRatio correct <= 1)%Q.
Proof.
  unfold accuracyRatio. split.
  - apply Q.min_glb; [apply Q.le_max_r | discriminate].
  - apply Q.le_min_r.
Qed.

(** The linear terms stay inside the clamp's interval by themselves. *)
Lemma rawAlpha_range (status : Status) (correct : option Z) :
  (0.18 <= rawAlpha status correct <= 0.95)%Q.
Proof.
  destruct correct as [c|].
  - pose proof (accuracyRatio_range c) as H. unfold rawAlpha.
    destruct status; simpl; try lra; split; discriminate.
  - destruct status; split; discriminate.
Qed.

(** C8.  For every status and every accuracy value, present or absent,
    the alpha that [renderCalendar] gives a day lies in [0.12, 0.95]; so
    do the alphas of the hundred day cards of every record set. *)
Theorem clampedAlpha_bounds (status : Status) (correct : option Z) :
  (0.12 <= clampedAlpha status correct <= 0.95)%Q /\
  forall state : State.t,
    List.length (renderCalendar state) = 100%nat /\
    Forall (fun alpha => (0.12 <= alpha <= 0.95)%Q) (renderCalendar state).
Proof.
  split; [apply clamp_bounds|].
  intros state. unfold renderCalendar. split.
  - now rewrite length_map, length_seq.
  - apply Forall_forall. intros alpha H.
    apply in_map_iff in H as (i & <- & _). apply clamp_bounds.
Qed.

(** ** Series aggregator *)

(** The clamp of the code is the clamp of the specification. *)
Lemma clampSolved_spec (solved : Q) :
  clampSolved solved = clampBetween 0 10 solved.
Proof.
  unfold clampSolved, clampBetween, Qmax, Qmin, GenericMinMax.gmax,
    GenericMinMax.gmin.
  destruct (Qlt_le_dec solved 0) as [Hlt|Hge].
  - destruct (Qcompare_spec solved 0) as [E|L|G]; [lra | reflexivity | lra].
  - destruct (Qlt_le_dec 10 solved) as [Hgt|Hle];
      destruct (Qcompare_spec solved 0) as [E|L|G]; try lra;
      destruct (Qcompare_spec solved 10) as [E'|L'|G']; try lra;
      reflexivity.
Qed.

Lemma clampBetween_range (solved : Q) :
  (0 <= clampBetween 0 10 solved <= 10)%Q.
Proof.
  unfold clampBetween.
  destruct (Qlt_le_dec solved 0); [split; discriminate|].
  destruct (Qlt_le_dec 10 solved); [split; discriminate|].
  now split.
Qed.

Lemma clampBetween_integral (solved : Q) :
  integral solved -> integral (clampBetween 0 10 solved).
Proof.
  intros H. unfold clampBetween.
  destruct (Qlt_le_dec solved 0); [now exists 0|].
  destruct (Qlt_le_dec 10 solved); [now exists 10 | assumption].
Qed.

Lemma onDay_app (d : Z) (a b : list (Z * Q)) :
  onDay d (a ++ b) = (onDay d a ++ onDay d b)%list.
Proof. unfold onDay. now rewrite filter_app, map_app. Qed.

Lemma sumZ_app (a b : list Z) : sumZ (a ++ b) = sumZ a + sumZ b.
Proof. induction a as [|x a IH]; simpl; [reflexivity | rewrite IH; lia]. Qed.

Lemma countZ_app {A : Type} (a b : list A) :
  countZ (a ++ b) = countZ a + countZ b.
Proof. unfold countZ. rewrite length_app. lia. Qed.

Lemma countZ_pos {A : Type} (l : list A) : l <> [] -> 0 < countZ l.
Proof. destruct l; [congruence | unfold countZ; simpl; lia]. Qed.

Lemma floatSum_snoc (fadd : Q -> Q -> Q) (values : list Q) (v : Q) :
  floatSum fadd (values ++ [v]) = fadd (floatSum fadd values) v.
Proof. unfold floatSum. now rewrite fold_left_app. Qed.

(** Integers are added up exactly. *)
Lemma floatSum_integers (fadd : Q -> Q -> Q) (ints : list Z) :
  exactOnIntegers fadd ->
  floatSum fadd (map inject_Z ints) = inject_Z (sumZ ints).
Proof.
  intros Hexact. unfold floatSum. change 0%Q with (inject_Z 0).
  assert (G : forall a,
             fold_left fadd (map inject_Z ints) (inject_Z a)
             = inject_Z (a + sumZ ints)).
  { induction ints as [|x l IH]; intros a; simpl.
    - now rewrite Z.add_0_r.
    - rewrite Hexact, IH. f_equal. lia. }
  apply (G 0).
Qed.

(** A sum of values of [[0, 10]] stays within [[0, 10 n]]. *)
Lemma floatSum_range (fadd : Q -> Q -> Q) (values : list Q) :
  addInRange fadd ->
  Forall (fun v => (0 <= v <= 10)%Q) values ->
  (0 <= floatSum fadd values <= 10 * inject_Z (countZ values))%Q.
Proof.
  intros Hadd. induction values as [|v l IH] using rev_ind; intros Hall.
  - split; discriminate.
  - apply Forall_app in Hall as [Hl Hv]. inversion Hv; subst.
    rewrite floatSum_snoc, countZ_app.
    apply Hadd; [unfold countZ; lia | now apply IH | assumption].
Qed.

Lemma addAll_app (fadd : Q -> Q -> Q) (m : JsMap.t) (a b : list (Z * Q)) :
  addAll fadd m (a ++ b) = addAll fadd (addAll fadd m a) b.
Proof. apply fold_left_app. Qed.

(** [addValue] in one step: the bucket of the day, or a fresh one, with
    the value added, stored under the day. *)
Lemma addValue_get (fadd : Q -> Q -> Q) (m : JsMap.t) (d : Z) (v : Q)
    (possible d' : Z) :
  JsMap.get Z.eq_dec d' (addValue fadd m d v possible)
  = if Z.eq_dec d' d
    then
      let bucket :=
        match JsMap.get Z.eq_dec d m with
        | Some bucket => bucket
        | None => Bucket.mk 0 0 0
        end in
      Some (Bucket.mk (fadd (Bucket.solved bucket) v) (Bucket.count bucket + 1)
              (Z.max (Bucket.max bucket) possible))
    else JsMap.get Z.eq_dec d' m.
Proof.
  unfold addValue, JsMap.has.
  destruct (JsMap.get Z.eq_dec d m) as [b|] eqn:E.
  - rewrite E. destruct (Z.eq_dec d' d) as [->|Hn].
    + apply get_set_eq.
    + now apply get_set_neq.
  - rewrite get_set_eq. destruct (Z.eq_dec d' d) as [->|Hn].
    + apply get_set_eq.
    + now rewrite !get_set_neq.
Qed.

Lemma addValue_keys (fadd : Q -> Q -> Q) (m : JsMap.t) (d : Z) (v : Q)
    (possible : Z) :
  NoDup (JsMap.keys m) -> NoDup (JsMap.keys (addValue fadd m d v possible)).
Proof.
  intros H. unfold addValue, JsMap.has.
  destruct (JsMap.get Z.eq_dec d m) as [b|] eqn:E.
  - rewrite E. now apply NoDup_keys_set.
  - rewrite get_set_eq. now do 2 apply NoDup_keys_set.
Qed.

Lemma onDay_single (d d' : Z) (v : Q) :
  onDay d' [(d, v)] = if Z.eq_dec d' d then [v] else [].
Proof.
  unfold onDay. simpl.
  destruct (Z.eq_dec d' d) as [->|Hn]; [now rewrite Z.eqb_refl|].
  destruct (Z.eqb_spec d d'); [congruence | reflexivity].
Qed.

Lemma addValue_accumulates (fadd : Q -> Q -> Q) (m : JsMap.t)
    (cs : list (Z * Q)) (d : Z) (v : Q) (possible : Z) :
  accumulates fadd m cs ->
  accumulates fadd (addValue fadd m d v possible) (cs ++ [(d, v)]).
Proof.
  intros [Hnd Hm]. split; [now apply addValue_keys|].
  intros d'. rewrite addValue_get, onDay_app, onDay_single.
  specialize (Hm d').
  destruct (Z.eq_dec d' d) as [->|Hn].
  - destruct (JsMap.get Z.eq_dec d m) as [b|]; cbv zeta.
    + destruct Hm as (Hne & Hs & Hc).
      rewrite floatSum_snoc, countZ_app, Hs, Hc.
      cbn [Bucket.solved Bucket.count].
      split; [|split; [reflexivity | unfold countZ; simpl; lia]].
      intros E. apply app_eq_nil in E as [_ E]. discriminate.
    + rewrite Hm. cbn [app Bucket.solved Bucket.count].
      split; [discriminate | split; reflexivity].
  - now rewrite app_nil_r.
Qed.

Lemma addAll_accumulates (fadd : Q -> Q -> Q) (cs cs0 : list (Z * Q))
    (m : JsMap.t) :
  accumulates fadd m cs0 -> accumulates fadd (addAll fadd m cs) (cs0 ++ cs).
Proof.
  revert m cs0. induction cs as [|[d v] cs IH]; intros m cs0 H; simpl.
  - now rewrite app_nil_r.
  - change (cs0 ++ (d, v) :: cs)%list with (cs0 ++ [(d, v)] ++ cs)%list.
    rewrite app_assoc. apply IH. now apply addValue_accumulates.
Qed.

Lemma fold_addPoint (fadd : Q -> Q -> Q) (points : list PerformancePoint.t)
    (m : JsMap.t) :
  fold_left (addPoint fadd) points m
  = addAll fadd m (flat_map pointContribution points).
Proof.
  revert m. induction points as [|pt points IH]; intros m; simpl; [reflexivity|].
  rewrite addAll_app, IH. f_equal.
  unfold addPoint, pointContribution.
  destruct (PerformancePoint.day pt), (PerformancePoint.solved pt);
    try reflexivity.
  now rewrite clampSolved_spec.
Qed.

Lemma fold_addParticipant (fadd : Q -> Q -> Q) (type : string)
    (participants : list Participant.t) (m : JsMap.t) :
  fold_left (addParticipant fadd type) participants m
  = addAll fadd m (flat_map (participantContributions type) participants).
Proof.
  revert m. induction participants as [|p ps IH]; intros m; simpl; [reflexivity|].
  rewrite addAll_app, IH. f_equal.
  unfold addParticipant, participantContributions.
  destruct (String.eqb (Participant.type p) type); simpl;
    [apply fold_addPoint | reflexivity].
Qed.

Lemma fold_addPrediction (fadd : Q -> Q -> Q) (type : string)
    (participantsById : JsMap.t) (day : Z) (predictions : list Prediction.t)
    (m : JsMap.t) :
  fold_left (addPrediction fadd type participantsById day) predictions m
  = addAll fadd m
      (map (fun prediction => (day, inject_Z (predictionScore prediction)))
         (filter (byCohort type participantsById) predictions)).
Proof.
  revert m. induction predictions as [|pr prs IH]; intros m; simpl;
    [reflexivity|].
  rewrite IH. unfold addPrediction, byCohort at 2.
  destruct (JsMap.get id_eq_dec (Some (Prediction.participantId pr))
              participantsById) as [p|]; [|reflexivity].
  destruct (String.eqb (Participant.type p) type); [|reflexivity].
  simpl. unfold predictionScore.
  destruct (Prediction.isCorrect pr); reflexivity.
Qed.

Lemma fold_addChallenge (fadd : Q -> Q -> Q) (type : string)
    (participantsById : JsMap.t) (challenges : list DailyChallenge.t)
    (m : JsMap.t) :
  fold_left (addChallenge fadd type participantsById) challenges m
  = addAll fadd m
      (flat_map (challengeContributions type participantsById) challenges).
Proof.
  revert m. induction challenges as [|c cs IH]; intros m; simpl; [reflexivity|].
  rewrite addAll_app, IH. f_equal. apply fold_addPrediction.
Qed.

Lemma dayTotals_addAll (fadd : Q -> Q -> Q) (type : string)
    (participantsById : JsMap.t) (state : State.t) :
  dayTotals fadd type participantsById state
  = addAll fadd JsMap.empty (contributions type participantsById state).
Proof.
  unfold dayTotals, contributions, performanceContributions,
    predictionContributions.
  now rewrite fold_addParticipant, fold_addChallenge, addAll_app.
Qed.

Lemma dayTotals_accumulates (fadd : Q -> Q -> Q) (type : string)
    (participantsById : JsMap.t) (state : State.t) :
  accumulates fadd (dayTotals fadd type participantsById state)
    (contributions type participantsById state).
Proof.
  rewrite dayTotals_addAll.
  apply (addAll_accumulates fadd _ [] JsMap.empty).
  split; [constructor | intros d; reflexivity].
Qed.

Lemma seriesPoint_x (toFixed2 : Q -> Z -> Z) (entry : Z * Bucket.t) :
  AggregatePoint.x (seriesPoint toFixed2 entry) = fst entry.
Proof.
  destruct entry as [d b]. unfold seriesPoint.
  destruct (Bucket.count b =? 0); reflexivity.
Qed.

Lemma series_days (fadd : Q -> Q -> Q) (toFixed2 : Q -> Z -> Z)
    (type : string) (participantsById : JsMap.t) (state : State.t) :
  Permutation
    (map AggregatePoint.x
       (buildAggregateSeries fadd toFixed2 type participantsById state))
    (JsMap.keys (dayTotals fadd type participantsById state)).
Proof.
  unfold buildAggregateSeries, JsMap.entries, JsMap.keys.
  rewrite (Permutation_map _ (sort_perm _ _)), map_map.
  erewrite map_ext; [reflexivity|]. intros e. apply seriesPoint_x.
Qed.

Lemma StronglySorted_strict {A : Type} (key : A -> Z) (l : list A) :
  StronglySorted (fun a b => key a <= key b) l -> NoDup (map key l) ->
  StronglySorted (fun a b => key a < key b) l.
Proof.
  induction 1 as [|a l Hs IH Ha]; intros Hnd; constructor;
    inversion Hnd as [|? ? Hnotin Hnd']; subst.
  - now apply IH.
  - rewrite Forall_forall in *. intros b Hb. specialize (Ha b Hb).
    assert (key a <> key b) by (intros E; apply Hnotin; rewrite E; now apply in_map).
    lia.
Qed.

(** Every point of the series comes from a day with contributions and
    shows the rounded quotient of their sum by their number. *)
Lemma series_point (fadd : Q -> Q -> Q) (toFixed2 : Q -> Z -> Z)
    (type : string) (participantsById : JsMap.t) (state : State.t)
    (point : AggregatePoint.t) :
  In point (buildAggregateSeries fadd toFixed2 type participantsById state) ->
  let values :=
    onDay (AggregatePoint.x point) (contributions type participantsById state) in
  values <> [] /\
  AggregatePoint.y point = toFixed2 (floatSum fadd values) (countZ values).
Proof.
  intros Hin. unfold buildAggregateSeries, JsMap.entries in Hin.
  apply (proj1 (sort_In _ _ _)) in Hin.
  apply in_map_iff in Hin as ([d b] & <- & Hdb).
  destruct (dayTotals_accumulates fadd type participantsById state)
    as [Hnd Hacc].
  apply (In_get_Some Z.eq_dec) in Hdb; [|assumption].
  specialize (Hacc d). rewrite Hdb in Hacc. destruct Hacc as (Hne & Hs & Hc).
  rewrite seriesPoint_x. cbn [fst]. split; [assumption|].
  unfold seriesPoint. pose proof (countZ_pos _ Hne).
  destruct (Z.eqb_spec (Bucket.count b) 0); [lia|].
  cbn [AggregatePoint.y]. now rewrite Hs, Hc.
Qed.

(** The exact addition and the rounding of the exact quotient meet what
    is asked of the engine. *)
Lemma Qplus_exactOnIntegers : exactOnIntegers Qplus.
Proof.
  intros a b. unfold Qplus, inject_Z. simpl. f_equal. lia.
Qed.

Lemma Qplus_addInRange : addInRange Qplus.
Proof.
  intros n a b Hn [Ha1 Ha2] [Hb1 Hb2]. rewrite inject_Z_plus.
  change (inject_Z 1) with 1%Q. split; lra.
Qed.

Lemma roundHalfUp_nearest : nearestHundredth roundHalfUp.
Proof.
  intros s c Hc. unfold roundHalfUp. cbn [Qnum Qden inject_Z].
  rewrite Z.mul_1_l.
  pose proof (Z.div_mod (200 * s + c) (2 * c) ltac:(lia)) as E.
  pose proof (Z.mod_pos_bound (200 * s + c) (2 * c) ltac:(lia)) as B.
  set (q := (200 * s + c) / (2 * c)) in *.
  set (r := (200 * s + c) mod (2 * c)) in *.
  assert (2 * (100 * s - c * q) = r - c) by lia.
  lia.
Qed.

Lemma roundHalfUp_rounds : roundsToHundredths roundHalfUp.
Proof.
  intros [n d] c Hc [Hs0 Hs1]. unfold roundHalfUp. cbn [Qnum Qden].
  unfold Qle, Qmult, inject_Z in Hs0, Hs1. cbn [Qnum Qden] in Hs0, Hs1.
  rewrite ?Pos.mul_1_l, ?Pos.mul_1_r, ?Z.mul_1_r in Hs0, Hs1.
  set (D := Z.pos d) in *.
  assert (HD : 0 < D) by (subst D; lia).
  assert (HDc : 0 < D * c) by lia.
  assert (Hn1 : n <= 10 * (D * c)) by lia.
  pose proof (Z.div_mod (200 * n + D * c) (2 * (D * c)) ltac:(lia)) as E.
  pose proof (Z.mod_pos_bound (200 * n + D * c) (2 * (D * c)) ltac:(lia)) as B.
  set (q := (200 * n + D * c) / (2 * (D * c))) in *.
  set (r := (200 * n + D * c) mod (2 * (D * c))) in *.
  assert (Hq0 : 0 <= q) by nia.
  assert (Hq1 : q <= 1000) by nia.
  split; [lia|].
  apply Qabs_Qle_condition.
  unfold Qle, Qminus, Qplus, Qmult, Qopp, inject_Z. cbn [Qnum Qden].
  rewrite ?Pos.mul_1_l, ?Pos.mul_1_r, ?Z.mul_1_r. fold D.
  split; nia.
Qed.

Lemma contributions_range (type : string) (participantsById : JsMap.t)
    (state : State.t) :
  Forall (fun c => (0 <= snd c <= 10)%Q)
    (contributions type participantsById state).
Proof.
  unfold contributions. apply Forall_app. split.
  - unfold performanceContributions. apply Forall_flat_map, Forall_forall.
    intros p _. unfold participantContributions.
    destruct (String.eqb (Participant.type p) type); [|constructor].
    apply Forall_flat_map, Forall_forall. intros pt _.
    unfold pointContribution.
    destruct (PerformancePoint.day pt), (PerformancePoint.solved pt);
      repeat constructor; apply clampBetween_range.
  - unfold predictionContributions. apply Forall_flat_map, Forall_forall.
    intros c _. unfold challengeContributions. apply Forall_map, Forall_forall.
    intros pr _. unfold predictionScore. simpl.
    destruct (Prediction.isCorrect pr); split; discriminate.
Qed.

Lemma onDay_range (type : string) (participantsById : JsMap.t)
    (state : State.t) (d : Z) :
  Forall (fun v => (0 <= v <= 10)%Q)
    (onDay d (contributions type participantsById state)).
Proof.
  unfold onDay. apply Forall_map, Forall_forall.
  intros c Hc. apply filter_In in Hc as [Hc _].
  pose proof (contributions_range type participantsById state) as H.
  rewrite Forall_forall in H. now apply H.
Qed.



Lemma onDay_predictions (type : string) (participantsById : JsMap.t)
    (state : State.t) (d : Z) :
  onDay d (predictionContributions type participantsById state)
  = map inject_Z
      (map predictionScore (cohortPredictionsOn type participantsById state d)).
Proof.
  unfold predictionContributions, cohortPredictionsOn.
  induction (State.dailyChallenges state) as [|c cs IH]; [reflexivity|].
  simpl. rewrite onDay_app, !map_app, IH. f_equal.
  unfold challengeContributions, onDay.
  induction (filter (byCohort type participantsById)
               (orEmpty (DailyChallenge.predictions c))) as [|pr prs IHp].
  - now destruct (DailyChallenge.day c =? d).
  - simpl. destruct (DailyChallenge.day c =? d); simpl in *; [|assumption].
    now rewrite IHp.
Qed.

Lemma sumZ_scores (predictions : list Prediction.t) :
  sumZ (map predictionScore predictions)
  = 10 * countZ (filter Prediction.isCorrect predictions).
Proof.
  induction predictions as [|pr prs IH]; [reflexivity|].
  cbn [map sumZ fold_right filter]. fold (sumZ (map predictionScore prs)).
  rewrite IH. unfold predictionScore, countZ.
  destruct (Prediction.isCorrect pr); cbn [List.length]; lia.
Qed.

Lemma cohortPredictionsOn_all (type : string) (participantsById : JsMap.t)
    (state : State.t) (d : Z) :
  (forall challenge prediction,
     In challenge (State.dailyChallenges state) ->
     DailyChallenge.day challenge = d ->
     In prediction (orEmpty (DailyChallenge.predictions challenge)) ->
     byCohort type participantsById prediction = true) ->
  cohortPredictionsOn type participantsById state d = predictionsOn state d.
Proof.
  unfold cohortPredictionsOn, predictionsOn.
  induction (State.dailyChallenges state) as [|c cs IH]; intros H;
    [reflexivity|].
  simpl. rewrite IH by (intros c' pr Hc'; apply H; now right). f_equal.
  destruct (Z.eqb_spec (DailyChallenge.day c) d) as [E|_]; [|reflexivity].
  assert (G : forall l : list Prediction.t,
             (forall pr, In pr l -> byCohort type participantsById pr = true) ->
             filter (byCohort type participantsById) l = l).
  { induction l as [|pr l IHl]; intros Hl; [reflexivity|].
    simpl. rewrite (Hl pr (or_introl eq_refl)). f_equal.
    apply IHl. intros; apply Hl; now right. }
  apply G. intros pr Hpr. apply (H c pr); [now left | assumption | assumption].
Qed.

(** C7.  Every value of the aggregate series lies in [0, 10] (0 to 1000
    hundredths); and on a day fed by predictions only, with [N]
    predictions of cohort participants of which [K] are correct, the
    value is [10 * K / N], rounded to a nearest hundredth like every
    value of the series; [N] is the number of all predictions on the
    day's challenges when cohort participants made them all. *)
Theorem buildAggregateSeries_range (fadd : Q -> Q -> Q)
    (toFixed2 : Q -> Z -> Z) (type : string)
    (participantsById : JsMap.t (K := option string) (V := Participant.t))
    (state : State.t) (point : AggregatePoint.t) :
  exactOnIntegers fadd -> addInRange fadd ->
  nearestHundredth toFixed2 -> roundsToHundredths toFixed2 ->
  In point (buildAggregateSeries fadd toFixed2 type participantsById state) ->
  0 <= AggregatePoint.y point <= 1000 /\
  (onDay (AggregatePoint.x point) (performanceContributions type state) = [] ->
   let predictions :=
     cohortPredictionsOn type participantsById state (AggregatePoint.x point) in
   let N := countZ predictions in
   let K := countZ (filter Prediction.isCorrect predictions) in
   0 < N /\
   AggregatePoint.y point = toFixed2 (inject_Z (10 * K)) N /\
   2 * Z.abs (100 * (10 * K) - N * AggregatePoint.y point) <= N /\
   ((forall challenge prediction,
       In challenge (State.dailyChallenges state) ->
       DailyChallenge.day challenge = AggregatePoint.x point ->
       In prediction (orEmpty (DailyChallenge.predictions challenge)) ->
       byCohort type participantsById prediction = true) ->
    predictions = predictionsOn state (AggregatePoint.x point))).
Proof.
  intros Hexact Hadd Hnear Hround Hin.
  destruct (series_point _ _ _ _ _ _ Hin) as [Hne Hy].
  split.
  - rewrite Hy. apply Hround; [now apply countZ_pos|].
    apply floatSum_range; [assumption | apply onDay_range].
  - intros Hperf predictions N K.
    unfold contributions in Hne, Hy.
    rewrite onDay_app, Hperf, onDay_predictions in Hne, Hy.
    cbn [app] in Hne, Hy. fold predictions in Hne, Hy.
    rewrite floatSum_integers, sumZ_scores in Hy by assumption.
    unfold countZ at 2 in Hy.
    rewrite !length_map in Hy. fold (countZ predictions) in Hy. fold N K in Hy.
    assert (HN : 0 < N).
    { subst N. apply countZ_pos. intros E. apply Hne. now rewrite E. }
    split; [exact HN|]. split; [exact Hy|]. split.
    + rewrite Hy. now apply Hnear.
    + apply cohortPredictionsOn_all.
Qed.

Lemma buildAggregateSeries_range_witness :
  In (AggregatePoint.mk 3 333) (aggregateData Qplus roundHalfUp "LLM" thirdsExample) /\
  0 <= AggregatePoint.y (AggregatePoint.mk 3 333) <= 1000.
Proof.
  assert (H : In (AggregatePoint.mk 3 333)
                (aggregateData Qplus roundHalfUp "LLM" thirdsExample))
    by (left; reflexivity).
  split; [exact H|].
  apply (buildAggregateSeries_range Qplus roundHalfUp "LLM"
           (participantLookup (State.participants thirdsExample))
           thirdsExample (AggregatePoint.mk 3 333)
           Qplus_exactOnIntegers Qplus_addInRange
           roundHalfUp_nearest roundHalfUp_rounds H).
Defined.

(** C10.  A prediction whose [participantId] no participant of the record
    set has leaves the day totals as they are, whatever the cohort: the
    series is the one of the record set without that prediction.  So the
    number of contributions counted for a day can be smaller than the
    number of predictions on the day's challenges: with one prediction of
    a known participant and one of an unknown id on a day-3 challenge, the
    day-3 count is 1. *)
Theorem buildAggregateSeries_skips_unknown (fadd : Q -> Q -> Q)
    (toFixed2 : Q -> Z -> Z)
    (type : string) (state : State.t) (prediction : Prediction.t) :
  (forall p, In p (State.participants state) ->
     Participant.id p <> Some (Prediction.participantId prediction)) ->
  let participantsById := participantLookup (State.participants state) in
  (forall day totals,
     addPrediction fadd type participantsById day totals prediction = totals) /\
  (forall cs1 challenge cs2 ps1 ps2,
     State.dailyChallenges state = (cs1 ++ challenge :: cs2)%list ->
     DailyChallenge.predictions challenge
     = Some (ps1 ++ prediction :: ps2)%list ->
     let without :=
       withChallenges state
         (cs1 ++ withPredictions challenge (ps1 ++ ps2) :: cs2) in
     dayTotals fadd type participantsById state
     = dayTotals fadd type participantsById without /\
     buildAggregateSeries fadd toFixed2 type participantsById state
     = buildAggregateSeries fadd toFixed2 type participantsById without) /\
  (option_map Bucket.count
     (JsMap.get Z.eq_dec 3
        (dayTotals fadd "LLM"
           (participantLookup (State.participants danglingExample))
           danglingExample)) = Some 1 /\
   map (fun c => countZ (orEmpty (DailyChallenge.predictions c)))
     (State.dailyChallenges danglingExample) = [2]).
Proof.
  intros Hunknown participantsById.
  assert (Hget : JsMap.get id_eq_dec
                   (Some (Prediction.participantId prediction))
                   participantsById = None)
    by now apply participantLookup_absent.
  split; [|split].
  - intros day totals. unfold addPrediction. now rewrite Hget.
  - intros cs1 challenge cs2 ps1 ps2 Hcs Hps without.
    assert (E : dayTotals fadd type participantsById state
                = dayTotals fadd type participantsById without).
    { rewrite !dayTotals_addAll. f_equal. unfold contributions. f_equal.
      unfold predictionContributions. subst without.
      cbn [withChallenges State.dailyChallenges]. rewrite Hcs.
      rewrite !flat_map_app. f_equal. cbn [flat_map]. f_equal.
      unfold challengeContributions.
      cbn [withPredictions DailyChallenge.day DailyChallenge.predictions].
      rewrite Hps. cbn [orEmpty]. rewrite !filter_app. cbn [filter].
      unfold byCohort at 2. now rewrite Hget. }
    split; [exact E|]. unfold buildAggregateSeries. now rewrite E.
  - split; reflexivity.
Qed.

Lemma buildAggregateSeries_skips_unknown_witness :
  addPrediction Qplus "LLM"
    (participantLookup (State.participants danglingExample))
    3 JsMap.empty (predictionOf "ghost" true)
  = JsMap.empty.
Proof.
  apply (buildAggregateSeries_skips_unknown Qplus roundHalfUp "LLM"
           danglingExample (predictionOf "ghost" true)).
  intros p [<-|[]]. discriminate.
Defined.

Lemma resolveParticipant_total_witness :
  resolveParticipant (participantLookup (State.participants danglingExample))
    (predictionOf "ghost" true)
  = placeholder.
Proof.
  apply (resolveParticipant_total danglingExample (predictionOf "ghost" true)).
  intros p [<-|[]]. discriminate.
Defined.

(** * Further properties *)

(** ** More on the sort *)

Section SortMore.
Context {A : Type}.
Variable cmp : A -> A -> Z.
Variable key : A -> Z.

Lemma insert_le_head (x : A) (l : list A) :
  (forall y, In y l -> cmp x y = key x - key y) ->
  (forall y, In y l -> key x <= key y) ->
  JsArray.insert cmp x l = x :: l.
Proof.
  destruct l as [|y l]; intros Hc Hle; [reflexivity|].
  cbn [JsArray.insert].
  pose proof (Hc y (or_introl eq_refl)). pose proof (Hle y (or_introl eq_refl)).
  destruct (Z.ltb_spec 0 (cmp x y)); [lia | reflexivity].
Qed.

(** Sorting a list that is in order already changes nothing. *)
Lemma sort_of_sorted (l : list A) :
  (forall a b, In a l -> In b l -> cmp a b = key a - key b) ->
  StronglySorted (fun a b => key a <= key b) l ->
  JsArray.sort cmp l = l.
Proof.
  induction l as [|x l IH]; intros Hc Hs; [reflexivity|].
  inversion Hs as [|? ? Hs' Hx]; subst.
  cbn [JsArray.sort fold_right]. fold (JsArray.sort cmp l).
  rewrite IH; [|intros; apply Hc; now right | assumption].
  apply insert_le_head.
  - intros y Hy. apply Hc; [now left | now right].
  - now apply Forall_forall.
Qed.

(** Two lists in strict order with the same elements are the same list. *)
Lemma strict_sorted_ext (l1 l2 : list A) :
  StronglySorted (fun a b => key a < key b) l1 ->
  StronglySorted (fun a b => key a < key b) l2 ->
  (forall a, In a l1 <-> In a l2) ->
  l1 = l2.
Proof.
  revert l2. induction l1 as [|a l1 IH]; intros l2 H1 H2 Hin.
  - destruct l2 as [|b l2]; [reflexivity|].
    exfalso. apply (proj2 (Hin b)). now left.
  - destruct l2 as [|b l2]; [exfalso; apply (proj1 (Hin a)); now left|].
    inversion H1 as [|? ? H1' Ha]; inversion H2 as [|? ? H2' Hb]; subst.
    rewrite Forall_forall in Ha, Hb.
    assert (a = b).
    { destruct (proj1 (Hin a) (or_introl eq_refl)) as [E|Ea]; [now symmetry|].
      destruct (proj2 (Hin b) (or_introl eq_refl)) as [E|Eb]; [assumption|].
      specialize (Ha b Eb). specialize (Hb a Ea). lia. }
    subst b. f_equal. apply IH; [assumption | assumption |].
    intros c. split; intros Hc.
    + destruct (proj1 (Hin c) (or_intror Hc)) as [E|E]; [|assumption].
      subst c. specialize (Ha a Hc). lia.
    + destruct (proj2 (Hin c) (or_intror Hc)) as [E|E]; [|assumption].
      subst c. specialize (Hb a Hc). lia.
Qed.

(** The sorted list is fixed by the elements and the order when keys are
    distinct. *)
Lemma sort_perm_eq (l1 l2 : list A) :
  (forall a b, In a l1 -> In b l1 -> cmp a b = key a - key b) ->
  NoDup (map key l1) -> Permutation l1 l2 ->
  JsArray.sort cmp l1 = JsArray.sort cmp l2.
Proof.
  intros Hc Hnd Hp.
  assert (Hc2 : forall a b, In a l2 -> In b l2 -> cmp a b = key a - key b).
  { intros a b Ha Hb.
    apply Hc; apply (Permutation_in _ (Permutation_sym Hp)); assumption. }
  apply strict_sorted_ext.
  - apply StronglySorted_strict; [now apply sort_sorted|].
    apply (Permutation_NoDup (l := map key l1)); [|assumption].
    apply Permutation_map. symmetry. apply sort_perm.
  - apply StronglySorted_strict; [now apply sort_sorted|].
    apply (Permutation_NoDup (l := map key l1)); [|assumption].
    apply Permutation_map. rewrite Hp. symmetry. apply sort_perm.
  - intros a. rewrite !sort_In. split; apply Permutation_in;
      [assumption | now symmetry].
Qed.

Lemma filter_insert (f : A -> bool) (x : A) (l : list A) :
  (forall a b, In a (x :: l) -> In b (x :: l) -> cmp a b = key a - key b) ->
  StronglySorted (fun a b => key a <= key b) l ->
  filter f (JsArray.insert cmp x l)
  = if f x then JsArray.insert cmp x (filter f l) else filter f l.
Proof.
  induction l as [|y l IH]; intros Hc Hs.
  - simpl. now destruct (f x).
  - inversion Hs as [|? ? Hs' Hy]; subst.
    assert (Hc' : forall a b, In a (x :: l) -> In b (x :: l) ->
                    cmp a b = key a - key b).
    { intros a b [->|Ha] [->|Hb]; apply Hc; simpl; auto. }
    specialize (IH Hc' Hs').
    pose proof (Hc x y (or_introl eq_refl) (or_intror (or_introl eq_refl))) as Hxy.
    cbn [JsArray.insert]. destruct (Z.ltb_spec 0 (cmp x y)) as [Hlt|Hge].
    + cbn [filter]. rewrite IH.
      destruct (f y), (f x); try reflexivity.
      cbn [JsArray.insert]. destruct (Z.ltb_spec 0 (cmp x y)); [reflexivity | lia].
    + cbn [filter]. destruct (f x) eqn:Fx; [|reflexivity].
      destruct (f y) eqn:Fy.
      * cbn [JsArray.insert].
        destruct (Z.ltb_spec 0 (cmp x y)); [lia | reflexivity].
      * symmetry. apply insert_le_head.
        -- intros z Hz. apply filter_In in Hz as [Hz _].
           apply Hc; [now left | right; now right].
        -- intros z Hz. apply filter_In in Hz as [Hz _].
           rewrite Forall_forall in Hy. specialize (Hy z Hz). lia.
Qed.

(** Filtering and sorting commute. *)
Lemma filter_sort (f : A -> bool) (l : list A) :
  (forall a b, In a l -> In b l -> cmp a b = key a - key b) ->
  filter f (JsArray.sort cmp l) = JsArray.sort cmp (filter f l).
Proof.
  induction l as [|x l IH]; intros Hc; [reflexivity|].
  cbn [JsArray.sort fold_right filter]. fold (JsArray.sort cmp l).
  rewrite filter_insert.
  - rewrite IH by (intros; apply Hc; now right).
    destruct (f x); reflexivity.
  - intros a b Ha Hb. apply Hc.
    + destruct Ha as [->|Ha]; [now left | right; now apply (proj1 (sort_In _ _ _)) in Ha].
    + destruct Hb as [->|Hb]; [now left | right; now apply (proj1 (sort_In _ _ _)) in Hb].
  - apply sort_sorted. intros; apply Hc; now right.
Qed.

End SortMore.

Lemma Permutation_filter {A : Type} (f : A -> bool) (l l' : list A) :
  Permutation l l' -> Permutation (filter f l) (filter f l').
Proof.
  induction 1 as [|x l l' _ IH|x y l|l l' l'' _ IH1 _ IH2]; simpl.
  - constructor.
  - destruct (f x); [now constructor | assumption].
  - destruct (f x), (f y); try reflexivity. apply perm_swap.
  - now transitivity (filter f l').
Qed.

(** ** More on the streaks *)

Lemma computeStreaks_longest (records : list CalendarDayRecord.t) :
  longestRun (JsArray.sort compareByDay records)
             (StreakResult.longest (computeStreaks records)).
Proof.
  rewrite computeStreaks_unfold. cbv zeta. cbn [StreakResult.longest].
  apply streak_fold_inv.
Qed.

Lemma computeStreaks_le (records : list CalendarDayRecord.t) :
  (StreakResult.current (computeStreaks records)
   <= StreakResult.longest (computeStreaks records))%nat.
Proof.
  pose proof (computeStreaks_current records) as Hcur.
  rewrite computeStreaks_unfold in *. cbv zeta in *.
  cbn [StreakResult.current StreakResult.longest] in *.
  destruct (streak_fold_inv (JsArray.sort compareByDay records))
    as (_ & Htr & Hle).
  now rewrite (trailingRun_unique _ _ _ Hcur Htr).
Qed.

Lemma isRun_length (s seg : list CalendarDayRecord.t) :
  isRun s seg ->
  (List.length seg <= List.length (filter isAgi s))%nat.
Proof.
  intros (a & b & -> & Hall). rewrite !filter_app, !length_app.
  assert (E : filter isAgi seg = seg).
  { clear -Hall. induction Hall as [|x l Hx _ IH]; [reflexivity|].
    simpl. now rewrite Hx, IH. }
  rewrite E. lia.
Qed.

(** When every record is an ['agi'] record, both streaks are the number
    of records. *)
Theorem computeStreaks_all_agi (records : list CalendarDayRecord.t) :
  allAgi records ->
  StreakResult.current (computeStreaks records) = List.length records /\
  StreakResult.longest (computeStreaks records) = List.length records.
Proof.
  intros Hall.
  set (s := JsArray.sort compareByDay records).
  assert (Hs : allAgi s).
  { unfold allAgi. apply Forall_forall. intros x Hx.
    apply (proj1 (sort_In _ _ _)) in Hx.
    unfold allAgi in Hall. rewrite Forall_forall in Hall. now apply Hall. }
  assert (Hlen : List.length s = List.length records) by apply sort_length.
  split.
  - rewrite <- Hlen.
    apply (trailingRun_unique s); [apply computeStreaks_current|].
    exists [], s. repeat split; [assumption | now left].
  - destruct (computeStreaks_longest records) as [(seg & Hrun & Hseg) Hmax].
    fold s in Hrun, Hmax.
    assert (List.length s <= StreakResult.longest (computeStreaks records))%nat.
    { apply Hmax. exists [], []. split; [now rewrite app_nil_r | assumption]. }
    destruct Hrun as (a & b & E & _).
    apply (f_equal (@List.length _)) in E. rewrite !length_app in E. lia.
Qed.

Lemma computeStreaks_all_agi_witness :
  StreakResult.current (computeStreaks gapExample) = 2%nat /\
  StreakResult.longest (computeStreaks gapExample) = 2%nat.
Proof.
  apply (computeStreaks_all_agi gapExample).
  repeat constructor.
Defined.

Lemma longest_le_agi (records : list CalendarDayRecord.t) :
  (StreakResult.longest (computeStreaks records)
   <= List.length (filter isAgi records))%nat.
Proof.
  destruct (computeStreaks_longest records) as [(seg & Hrun & Hseg) _].
  rewrite <- Hseg.
  rewrite <- (Permutation_length
                (Permutation_filter isAgi _ _ (sort_perm compareByDay records))).
  now apply isRun_length.
Qed.

(** The longest streak never exceeds the number of ['agi'] records, and
    it is 0 exactly when there is none. *)
Theorem computeStreaks_longest_counts (records : list CalendarDayRecord.t) :
  (StreakResult.longest (computeStreaks records)
   <= List.length (filter isAgi records))%nat /\
  (StreakResult.longest (computeStreaks records) = 0%nat <->
   forall r, In r records -> isAgi r = false).
Proof.
  destruct (computeStreaks_longest records) as [_ Hmax].
  set (s := JsArray.sort compareByDay records) in *.
  pose proof (longest_le_agi records) as Hle.
  split; [exact Hle|]. split.
  - intros Hz r Hr. destruct (isAgi r) eqn:E; [|reflexivity].
    apply (sort_In compareByDay) in Hr. fold s in Hr.
    apply in_split in Hr as (a & b & Hs).
    assert (1 <= StreakResult.longest (computeStreaks records))%nat; [|lia].
    apply (Hmax [r]). exists a, b. split; [exact Hs | now constructor].
  - intros Hnone.
    assert (E : filter isAgi records = []).
    { clear -Hnone. induction records as [|x l IH]; [reflexivity|].
      simpl. rewrite (Hnone x (or_introl eq_refl)).
      apply IH. intros; apply Hnone; now right. }
    rewrite E in Hle. simpl in Hle. lia.
Qed.

Lemma computeStreaks_longest_counts_witness :
  StreakResult.longest
    (computeStreaks [calendarDay 1 Missed; calendarDay 2 Pending]) = 0%nat.
Proof.
  apply (computeStreaks_longest_counts
           [calendarDay 1 Missed; calendarDay 2 Pending]).
  intros r [<-|[<-|[]]]; reflexivity.
Defined.

(** With distinct day numbers the streaks do not depend on the order in
    which the records are given. *)
Theorem computeStreaks_order_independent (records records' : list CalendarDayRecord.t) :
  Forall numericDay records ->
  NoDup (map CalendarDayRecord.day records) ->
  Permutation records records' ->
  computeStreaks records = computeStreaks records'.
Proof.
  intros Hnum Hnd Hp. rewrite !computeStreaks_unfold. cbv zeta.
  assert (E : JsArray.sort compareByDay records
              = JsArray.sort compareByDay records').
  { apply (sort_perm_eq compareByDay dayKey);
      [now apply compareByDay_key | | assumption].
    clear -Hnum Hnd. induction records as [|r l IH]; [constructor|].
    inversion Hnum as [|? ? Hr Hl]; inversion Hnd as [|? ? Hnotin Hnd']; subst.
    simpl. constructor; [|now apply IH].
    intros Hin. apply Hnotin. apply in_map_iff in Hin as (r' & Hk & Hr').
    apply in_map_iff. exists r'. split; [|assumption].
    rewrite Forall_forall in Hl. specialize (Hl r' Hr').
    unfold numericDay, dayKey in *.
    destruct (CalendarDayRecord.day r'), (CalendarDayRecord.day r);
      simpl in *; congruence. }
  now rewrite E.
Qed.

Lemma computeStreaks_order_independent_witness :
  computeStreaks streakExample = computeStreaks (rev streakExample).
Proof.
  apply computeStreaks_order_independent.
  - repeat constructor; discriminate.
  - repeat constructor; simpl; intuition discriminate.
  - apply Permutation_rev.
Defined.

(** ** More on the record normaliser *)

Lemma set_absent_append {K V : Type}
    (K_eq_dec : forall a b : K, {a = b} + {a <> b})
    (k : K) (v : V) (m : JsMap.t) :
  ~ In k (JsMap.keys m) -> JsMap.set K_eq_dec k v m = (m ++ [(k, v)])%list.
Proof.
  induction m as [|[k' v'] m IH]; intros Hk; simpl; [reflexivity|].
  destruct (K_eq_dec k k') as [->|Hn].
  - exfalso. apply Hk. now left.
  - rewrite IH; [reflexivity|]. intros H. apply Hk. now right.
Qed.

(** Either no record of the feed carries the day, or one is the last to
    carry it. *)
Lemma last_with_day (l : list CalendarDayRecord.t) (d : Z) :
  (forall r, In r l -> CalendarDayRecord.day r <> Some d) \/
  exists l1 r l2,
    l = (l1 ++ r :: l2)%list /\ CalendarDayRecord.day r = Some d /\
    forall r', In r' l2 -> CalendarDayRecord.day r' <> Some d.
Proof.
  induction l as [|x l IH].
  - left. intros r [].
  - destruct IH as [Hnone|(l1 & r & l2 & -> & Hr & Hl2)].
    + assert (Hdec : {CalendarDayRecord.day x = Some d}
                     + {CalendarDayRecord.day x <> Some d}).
      { destruct (CalendarDayRecord.day x) as [k|]; [|right; discriminate].
        destruct (Z.eq_dec k d) as [->|Hn]; [now left | right; congruence]. }
      destruct Hdec as [Hx|Hx].
      * right. exists [], x, l. repeat split; assumption.
      * left. intros r [<-|Hr]; [assumption | now apply Hnone].
    + right. exists (x :: l1), r, l2. repeat split; assumption.
Qed.

Lemma dedupeCalendarMap_keys (calendarDays : list CalendarDayRecord.t) (d : Z) :
  In d (JsMap.keys (dedupeCalendarMap calendarDays))
  <-> In d (numericDays calendarDays).
Proof.
  destruct (dedupeCalendarMap_normalised calendarDays) as [Hnd Hin].
  unfold numericDays. rewrite in_flat_map. split.
  - intros H. apply in_map_iff in H as ([k v] & <- & Hkv).
    destruct (Hin _ _ Hkv) as [Hd Hv]. exists v. split; [assumption|].
    rewrite Hd. now left.
  - intros (r & Hr & Hd).
    destruct (CalendarDayRecord.day r) as [k|] eqn:E; [|destruct Hd].
    destruct Hd as [<-|[]].
    destruct (last_with_day calendarDays k) as [Hnone|(l1 & r' & l2 & -> & Hr' & Hl2)].
    + exfalso. now apply (Hnone r).
    + pose proof (dedupe_fold_last k l1 l2 r' JsMap.empty Hr' Hl2) as G.
      apply get_Some_In in G. change k with (fst (k, r')). now apply in_map.
Qed.

Lemma getCalendarRecords_days (calendarDays : list CalendarDayRecord.t) :
  NoDup (map dayKey (getCalendarRecords calendarDays)) /\
  Forall numericDay (getCalendarRecords calendarDays).
Proof.
  destruct (dedupeCalendarMap_normalised calendarDays) as [Hnd Hin].
  unfold getCalendarRecords.
  set (m := dedupeCalendarMap calendarDays) in *. split.
  - apply (Permutation_NoDup (l := map dayKey (JsMap.values m))).
    + apply Permutation_map. symmetry. apply sort_perm.
    + unfold JsMap.values. rewrite map_map.
      rewrite (map_ext_in _ fst); [exact Hnd|].
      intros [k v] H. unfold dayKey. simpl. now apply Hin in H as [-> _].
  - apply Forall_forall. intros r Hr. apply (proj1 (sort_In _ _ _)) in Hr.
    apply in_map_iff in Hr as ([k v] & <- & Hkv).
    apply Hin in Hkv as [Hd _]. unfold numericDay. simpl. congruence.
Qed.

Lemma getCalendarRecords_strict (calendarDays : list CalendarDayRecord.t) :
  StronglySorted (fun a b => dayKey a < dayKey b)
    (getCalendarRecords calendarDays).
Proof.
  destruct (getCalendarRecords_days calendarDays) as [Hnd Hnum].
  apply StronglySorted_strict; [|assumption].
  unfold getCalendarRecords. apply sort_sorted.
  apply compareByDay_key.
  apply Forall_forall. intros r Hr.
  rewrite Forall_forall in Hnum. apply Hnum.
  unfold getCalendarRecords. now apply sort_In.
Qed.

(** The day-ascending view is in strictly ascending day order; every
    record of it is a record of the feed with a numeric day; and its days
    are exactly the day numbers the feed carries. *)
Theorem getCalendarRecords_ascending (calendarDays : list CalendarDayRecord.t) :
  let records := getCalendarRecords calendarDays in
  StronglySorted (fun a b => dayKey a < dayKey b) records /\
  (forall r, In r records ->
     In r calendarDays /\ CalendarDayRecord.day r = Some (dayKey r)) /\
  (forall d, In d (map dayKey records) <-> In d (numericDays calendarDays)).
Proof.
  intros records. subst records.
  destruct (dedupeCalendarMap_normalised calendarDays) as [Hnd Hin].
  split; [apply getCalendarRecords_strict|]. split.
  - intros r Hr. unfold getCalendarRecords in Hr.
    apply (proj1 (sort_In _ _ _)) in Hr.
    apply in_map_iff in Hr as ([k v] & <- & Hkv).
    apply Hin in Hkv as [Hd Hv]. simpl. split; [assumption|].
    unfold dayKey. now rewrite Hd.
  - intros d. rewrite <- dedupeCalendarMap_keys.
    unfold getCalendarRecords.
    assert (P : Permutation
                  (map dayKey (JsArray.sort compareByDay
                                 (JsMap.values (dedupeCalendarMap calendarDays))))
                  (JsMap.keys (dedupeCalendarMap calendarDays))).
    { rewrite (Permutation_map dayKey (sort_perm compareByDay _)).
      unfold JsMap.values, JsMap.keys. rewrite map_map.
      rewrite (map_ext_in _ fst); [reflexivity|].
      intros [k v] H. unfold dayKey. simpl. now apply Hin in H as [-> _]. }
    split; apply Permutation_in; [assumption | now symmetry].
Qed.

Lemma getCalendarRecords_ascending_witness :
  In (calendarDay 1 Agi) dedupeExample.
Proof.
  destruct (getCalendarRecords_ascending dedupeExample) as (_ & H & _).
  apply (H (calendarDay 1 Agi)). left. reflexivity.
Defined.

Lemma dedupe_fold_distinct (l : list CalendarDayRecord.t) (m : JsMap.t) :
  Forall numericDay l -> NoDup (map dayKey l) ->
  (forall r, In r l -> ~ In (dayKey r) (JsMap.keys m)) ->
  fold_left dedupeStep l m = (m ++ map (fun r => (dayKey r, r)) l)%list.
Proof.
  revert m. induction l as [|x l IH]; intros m Hnum Hnd Hm; simpl.
  - now rewrite app_nil_r.
  - inversion Hnum as [|? ? Hx Hl]; inversion Hnd as [|? ? Hnotin Hnd']; subst.
    unfold dedupeStep at 2. unfold numericDay in Hx.
    destruct (CalendarDayRecord.day x) as [d|] eqn:E; [|congruence].
    assert (Hd : dayKey x = d) by (unfold dayKey; now rewrite E).
    subst d.
    rewrite set_absent_append by (apply Hm; now left).
    rewrite IH; [|assumption|assumption|].
    + now rewrite <- app_assoc.
    + intros r Hr Hin. unfold JsMap.keys in Hin. rewrite map_app in Hin.
      apply in_app_or in Hin as [Hin|[Hin|[]]].
      * apply (Hm r (or_intror Hr)). exact Hin.
      * simpl in Hin. apply Hnotin. rewrite Hin. now apply in_map.
Qed.

(** Building the day-ascending view from a day-ascending view gives it
    back, and sorting it by day once more (as [computeStreaks] does)
    changes nothing. *)
Theorem getCalendarRecords_idempotent (calendarDays : list CalendarDayRecord.t) :
  getCalendarRecords (getCalendarRecords calendarDays)
  = getCalendarRecords calendarDays /\
  JsArray.sort compareByDay (getCalendarRecords calendarDays)
  = getCalendarRecords calendarDays.
Proof.
  destruct (getCalendarRecords_days calendarDays) as [Hnd Hnum].
  pose proof (getCalendarRecords_strict calendarDays) as Hs.
  assert (Hsort : JsArray.sort compareByDay (getCalendarRecords calendarDays)
                  = getCalendarRecords calendarDays).
  { apply (sort_of_sorted compareByDay dayKey).
    - now apply compareByDay_key.
    - eapply StronglySorted_weaken; [|exact Hs]. intros a b H. simpl in H. lia. }
  split; [|exact Hsort].
  unfold getCalendarRecords at 1. unfold dedupeCalendarMap.
  rewrite dedupe_fold_distinct; [|assumption|assumption|intros r _ []].
  unfold JsMap.empty, JsMap.values. cbn [app].
  rewrite map_map. cbn [snd]. rewrite map_id. exact Hsort.
Qed.

(** ** Metrics *)

Lemma numericDays_length (calendarDays : list CalendarDayRecord.t) :
  (List.length (numericDays calendarDays) <= List.length calendarDays)%nat.
Proof.
  induction calendarDays as [|r l IH]; [constructor|].
  unfold numericDays in *. simpl. rewrite length_app.
  destruct (CalendarDayRecord.day r); simpl; lia.
Qed.

Lemma daysTracked_keys (calendarDays : list CalendarDayRecord.t) :
  List.length (getCalendarRecords calendarDays)
  = List.length (JsMap.keys (dedupeCalendarMap calendarDays)).
Proof.
  unfold getCalendarRecords, JsMap.values, JsMap.keys.
  now rewrite sort_length, !length_map.
Qed.

(** The days tracked are the distinct day numbers of the feed. *)
Theorem renderMetrics_daysTracked (state : State.t) :
  Metrics.daysTracked (renderMetrics state)
  = List.length (nodup Z.eq_dec (numericDays (State.calendarDays state))).
Proof.
  cbn [renderMetrics Metrics.daysTracked]. rewrite daysTracked_keys.
  apply Permutation_length, NoDup_Permutation.
  - apply dedupeCalendarMap_normalised.
  - apply NoDup_nodup.
  - intros d. rewrite nodup_In. apply dedupeCalendarMap_keys.
Qed.

(** The figures of the page are ordered: current streak, longest streak,
    AGI days, days tracked, records of the feed. *)
Theorem renderMetrics_ordered (state : State.t) :
  let metrics := renderMetrics state in
  let streaks := computeStreaks (getCalendarRecords (State.calendarDays state)) in
  (Metrics.currentStreak metrics <= StreakResult.longest streaks)%nat /\
  (StreakResult.longest streaks <= Metrics.agiDays metrics)%nat /\
  (Metrics.agiDays metrics <= Metrics.daysTracked metrics)%nat /\
  (Metrics.daysTracked metrics <= List.length (State.calendarDays state))%nat.
Proof.
  intros metrics streaks. subst metrics streaks.
  cbn [renderMetrics Metrics.currentStreak Metrics.agiDays Metrics.daysTracked].
  split; [apply computeStreaks_le|].
  split; [apply longest_le_agi|].
  split; [apply filter_length_le|].
  rewrite daysTracked_keys.
  etransitivity; [|apply numericDays_length].
  apply NoDup_incl_length; [apply dedupeCalendarMap_normalised|].
  intros d. apply dedupeCalendarMap_keys.
Qed.

(** The status line and the progress label tell the same story: when the
    status is ["yes"] the label is the achievement notice; when both say
    "not yet" they show the same longest streak and the same number of
    days still needed, [100 - longest]; and the status says "not yet"
    under the achievement notice only with 0 days needed, after a streak
    of 100 has been reached and broken. *)
Theorem renderMetrics_status_and_goal (state : State.t) :
  let metrics := renderMetrics state in
  match Metrics.agiStatus metrics, GoalProgress.label (Metrics.goal metrics) with
  | AgiYes, GoalAchieved => True
  | AgiYes, GoalSoFar _ _ _ => False
  | AgiNotYet longest plural remaining, GoalSoFar longest' plural' toGo =>
      longest = longest' /\ plural = plural' /\ remaining = toGo /\
      toGo = 100 - Z.of_nat longest /\ 0 < toGo
  | AgiNotYet longest _ remaining, GoalAchieved =>
      remaining = 0 /\ (100 <= longest)%nat
  end.
Proof.
  cbv zeta. cbn [renderMetrics Metrics.agiStatus Metrics.goal].
  pose proof (computeStreaks_le (getCalendarRecords (State.calendarDays state)))
    as Hle.
  destruct (computeStreaks (getCalendarRecords (State.calendarDays state)))
    as [current longest].
  cbn [StreakResult.current StreakResult.longest] in *.
  unfold updateAgiStatus, updateGoalProgress.
  cbn [StreakResult.current StreakResult.longest GoalProgress.label].
  destruct (Nat.leb_spec 100 current), (Nat.leb_spec 100 longest);
    try exact I; try lia.
  repeat split; lia.
Qed.

(** The progress bar is between 0 and 100 percent wide, and it is full
    exactly when the label is the achievement notice, that is when the
    longest streak has reached 100. *)
Theorem updateGoalProgress_width (longestStreak : nat) :
  let progress := updateGoalProgress longestStreak in
  (0 <= GoalProgress.width progress <= 100)%Q /\
  (GoalProgress.width progress == 100 <-> (100 <= longestStreak)%nat)%Q /\
  (GoalProgress.label progress = GoalAchieved <-> (100 <= longestStreak)%nat).
Proof.
  cbv zeta. unfold updateGoalProgress.
  cbn [GoalProgress.width GoalProgress.label].
  set (n := inject_Z (Z.of_nat longestStreak)).
  assert (Hx : (n / 100 * 100 == n)%Q) by field.
  assert (Hn : (0 <= n)%Q)
    by (subst n; change 0%Q with (inject_Z 0); rewrite <- Zle_Qle; lia).
  assert (Hcmp : (100 <= n)%Q <-> (100 <= longestStreak)%nat).
  { subst n. change 100%Q with (inject_Z 100). rewrite <- Zle_Qle. lia. }
  destruct (Q.min_spec (n / 100 * 100) 100) as [[Hlt Hm]|[Hge Hm]];
    rewrite Hm, ?Hx in *.
  - split; [split; [assumption | lra]|]. split.
    + rewrite <- Hcmp. split; intros H; lra.
    + destruct (Nat.leb_spec 100 longestStreak) as [H|H].
      * apply Hcmp in H. lra.
      * split; [discriminate | lia].
  - split; [split; [lra | lra]|]. split.
    + rewrite <- Hcmp. split; intros; [assumption | reflexivity].
    + apply Hcmp in Hge. destruct (Nat.leb_spec 100 longestStreak) as [H|H];
        [tauto | lia].
Qed.

Lemma updateGoalProgress_width_witness :
  GoalProgress.label (updateGoalProgress 100) = GoalAchieved.
Proof.
  destruct (updateGoalProgress_width 100) as (_ & _ & H).
  apply H. apply le_n.
Defined.

(** ** More on the calendar grid *)

Lemma dedupe_filter_get (f : CalendarDayRecord.t -> bool)
    (l : list CalendarDayRecord.t) (d : Z) :
  (forall r, In r l -> CalendarDayRecord.day r = Some d -> f r = true) ->
  JsMap.get Z.eq_dec d (dedupeCalendarMap (filter f l))
  = JsMap.get Z.eq_dec d (dedupeCalendarMap l).
Proof.
  intros Hf. unfold dedupeCalendarMap.
  destruct (last_with_day l d) as [Hnone|(l1 & r & l2 & -> & Hr & Hl2)].
  - rewrite !dedupe_fold_absent; [reflexivity | assumption |].
    intros r Hr. apply filter_In in Hr as [Hr _]. now apply Hnone.
  - rewrite dedupe_fold_last by assumption.
    rewrite filter_app. cbn [filter].
    rewrite (Hf r) by (try apply in_or_app; try (right; now left); assumption).
    apply dedupe_fold_last; [assumption|].
    intros r' Hr'. apply filter_In in Hr' as [Hr' _]. now apply Hl2.
Qed.

Lemma renderCalendar_nth (state : State.t) (i : nat) :
  (i < 100)%nat ->
  nth i (renderCalendar state) 0%Q
  = dayCardAlpha (dedupeCalendarMap (State.calendarDays state))
      (Z.of_nat (S i)).
Proof.
  intros Hi. unfold renderCalendar. cbv zeta.
  rewrite (nth_indep _ 0%Q
             (dayCardAlpha (dedupeCalendarMap (State.calendarDays state))
                (Z.of_nat 0)))
    by (now rewrite length_map, length_seq).
  rewrite (map_nth (fun i => dayCardAlpha _ (Z.of_nat i))).
  now rewrite seq_nth.
Qed.

(** The card of day [i + 1] shows the last record the feed has for that
    day: its status (pending when it has none) and its accuracy go into
    the alpha; a day the feed has no record for shows the pending base
    alpha, 0.24. *)
Theorem renderCalendar_last_record (state : State.t) (i : nat) :
  (i < 100)%nat ->
  let day := Z.of_nat (S i) in
  let feed := State.calendarDays state in
  ((forall r, In r feed -> CalendarDayRecord.day r <> Some day) ->
   nth i (renderCalendar state) 0%Q = 0.24%Q) /\
  (forall l1 r l2,
     feed = (l1 ++ r :: l2)%list ->
     CalendarDayRecord.day r = Some day ->
     (forall r', In r' l2 -> CalendarDayRecord.day r' <> Some day) ->
     nth i (renderCalendar state) 0%Q
     = clampedAlpha
         (match CalendarDayRecord.status r with
          | Some status => status
          | None => Pending
          end)
         (CalendarDayRecord.correct r)).
Proof.
  intros Hi day feed. rewrite renderCalendar_nth by assumption.
  fold day feed. unfold dayCardAlpha, dedupeCalendarMap. split.
  - intros Hnone. now rewrite dedupe_fold_absent.
  - intros l1 r l2 -> Hr Hl2. now rewrite dedupe_fold_last.
Qed.

Lemma renderCalendar_last_record_witness :
  nth 4 (renderCalendar (State.mk None streakExample [] [])) 0%Q = 0.24%Q.
Proof.
  apply (renderCalendar_last_record (State.mk None streakExample [] []) 4).
  - repeat constructor.
  - intros r [<-|[<-|[<-|[<-|[]]]]]; discriminate.
Defined.

(** Records that belong to none of the hundred slots (a day below 1 or
    above 100, or no numeric day) leave the grid as it is. *)
Theorem renderCalendar_ignores_off_grid (state : State.t) :
  renderCalendar (withCalendarDays state (filter inGrid (State.calendarDays state)))
  = renderCalendar state.
Proof.
  unfold renderCalendar. cbn [withCalendarDays State.calendarDays].
  apply map_ext_in. intros i Hi. apply in_seq in Hi.
  unfold dayCardAlpha. rewrite dedupe_filter_get; [reflexivity|].
  intros r _ Hr. unfold inGrid. rewrite Hr.
  apply andb_true_intro. split; apply Z.leb_le; lia.
Qed.

(** ** More on the intensity *)

Lemma accuracyRatio_monotone (c1 c2 : Z) :
  c1 <= c2 -> (accuracyRatio c1 <= accuracyRatio c2)%Q.
Proof.
  intros H. unfold accuracyRatio.
  apply Q.min_le_compat_r, Q.max_le_compat_r.
  unfold Qdiv. apply Qmult_le_compat_r; [now rewrite <- Zle_Qle | discriminate].
Qed.

(** The final clamp never has to act: the alpha computed from the status
    and the accuracy is inside [0.12, 0.95] already. *)
Theorem clampedAlpha_is_rawAlpha (status : Status) (correct : option Z) :
  (clampedAlpha status correct == rawAlpha status correct)%Q.
Proof.
  destruct (rawAlpha_range status correct) as [Hlo Hhi]. unfold clampedAlpha.
  assert (Hmax : (Qmax (rawAlpha status correct) 0.12 == rawAlpha status correct)%Q)
    by (apply Q.max_l; lra).
  rewrite Q.min_l; [exact Hmax|]. rewrite Hmax. exact Hhi.
Qed.

(** A higher accuracy makes an ['agi'], ['evaluating'] or ['pending'] day
    more intense, and a ['missed'] day less intense. *)
Theorem clampedAlpha_monotone (c1 c2 : Z) :
  c1 <= c2 ->
  (clampedAlpha Agi (Some c1) <= clampedAlpha Agi (Some c2))%Q /\
  (clampedAlpha Evaluating (Some c1) <= clampedAlpha Evaluating (Some c2))%Q /\
  (clampedAlpha Pending (Some c1) <= clampedAlpha Pending (Some c2))%Q /\
  (clampedAlpha Missed (Some c2) <= clampedAlpha Missed (Some c1))%Q.
Proof.
  intros H. pose proof (accuracyRatio_monotone c1 c2 H) as Hr.
  unfold clampedAlpha, rawAlpha. cbv zeta.
  set (r1 := accuracyRatio c1) in *. set (r2 := accuracyRatio c2) in *.
  repeat split; apply Q.min_le_compat_r, Q.max_le_compat_r; lra.
Qed.

Lemma clampedAlpha_monotone_witness :
  (clampedAlpha Agi (Some 3%Z) <= clampedAlpha Agi (Some 7%Z))%Q.
Proof.
  apply (clampedAlpha_monotone 3 7). lia.
Defined.

(** ** More on the leaderboard and the chart ranking *)

Lemma compareByAgiDays_key (a b : Participant.t) :
  compareByAgiDays a b
  = - orZero (Participant.agiDays a) - - orZero (Participant.agiDays b).
Proof. unfold compareByAgiDays. lia. Qed.

(** Ranking a list that is ranked already leaves it as it is. *)
Theorem renderLeaderboard_idempotent (state : State.t) :
  renderLeaderboard_sorted
    (withParticipants state (renderLeaderboard_sorted state))
  = renderLeaderboard_sorted state.
Proof.
  unfold renderLeaderboard_sorted at 1.
  cbn [withParticipants State.participants].
  apply (sort_of_sorted compareByAgiDays
           (fun p => - orZero (Participant.agiDays p))).
  - intros; apply compareByAgiDays_key.
  - apply sort_sorted. intros; apply compareByAgiDays_key.
Qed.

Lemma sort_nil_iff {A : Type} (cmp : A -> A -> Z) (l : list A) :
  JsArray.sort cmp l = [] <-> l = [].
Proof.
  split; intros H.
  - apply length_zero_iff_nil. rewrite <- (sort_length cmp), H. reflexivity.
  - now subst.
Qed.

Lemma participantLine_cases (index : nat) (participant : Participant.t) :
  participantLine index participant
  = if hasPerformance participant
    then [ParticipantLine.mk (Participant.name participant)
            (JsArray.sort compareByPointDay
               (orEmpty (Participant.performance participant)))
            (index mod 6)%nat]
    else [].
Proof.
  unfold participantLine, hasPerformance. cbv zeta.
  destruct (orEmpty (Participant.performance participant)) as [|pt pts] eqn:E.
  - reflexivity.
  - cbn [nonEmpty].
    destruct (JsArray.sort compareByPointDay (pt :: pts)) eqn:S; [|reflexivity].
    apply sort_nil_iff in S. discriminate.
Qed.

Lemma participantLinesFrom_labels (index : nat) (ranked : list Participant.t) :
  map ParticipantLine.label (participantLinesFrom index ranked)
  = map Participant.name (filter hasPerformance ranked).
Proof.
  revert index. induction ranked as [|p l IH]; intros index; [reflexivity|].
  cbn [participantLinesFrom filter]. rewrite map_app, IH, participantLine_cases.
  destruct (hasPerformance p); reflexivity.
Qed.

Lemma participantLinesFrom_In (index : nat) (ranked : list Participant.t)
    (line : ParticipantLine.t) :
  In line (participantLinesFrom index ranked) ->
  exists participant,
    In participant ranked /\ hasPerformance participant = true /\
    ParticipantLine.label line = Participant.name participant /\
    Permutation (ParticipantLine.data line)
      (orEmpty (Participant.performance participant)).
Proof.
  revert index. induction ranked as [|p l IH]; intros index; [intros []|].
  cbn [participantLinesFrom]. intros H. apply in_app_or in H as [H|H].
  - rewrite participantLine_cases in H.
    destruct (hasPerformance p) eqn:E; [|destruct H].
    destruct H as [<-|[]]. exists p. cbn.
    repeat split; [now left | assumption | apply sort_perm].
  - destruct (IH _ H) as (q & Hq & Hrest). exists q. split; [now right | assumption].
Qed.

(** The local array [rankedParticipants] holds the first four
    participants of the type in leaderboard order; the participants that
    get a line of their own are those of the four that have at least one
    performance point, in that order, each under its name and with its
    own performance points. *)
Theorem participantLines_leaderboard (type : string) (state : State.t) :
  let ranked := rankedParticipants type state in
  let lines := participantLines type state in
  ranked
  = firstn 4
      (filter (fun entry => String.eqb (Participant.type entry) type)
         (renderLeaderboard_sorted state)) /\
  map ParticipantLine.label lines
  = map Participant.name (filter hasPerformance ranked) /\
  (List.length lines <= 4)%nat /\
  (forall line, In line lines ->
     exists participant,
       In participant (State.participants state) /\
       Participant.type participant = type /\
       hasPerformance participant = true /\
       ParticipantLine.label line = Participant.name participant /\
       Permutation (ParticipantLine.data line)
         (orEmpty (Participant.performance participant))).
Proof.
  cbv zeta.
  assert (E : rankedParticipants type state
              = firstn 4
                  (filter (fun entry => String.eqb (Participant.type entry) type)
                     (renderLeaderboard_sorted state))).
  { unfold rankedParticipants, renderLeaderboard_sorted. f_equal. symmetry.
    apply (filter_sort compareByAgiDays
             (fun p => - orZero (Participant.agiDays p))).
    intros; apply compareByAgiDays_key. }
  assert (L : map ParticipantLine.label (participantLines type state)
              = map Participant.name
                  (filter hasPerformance (rankedParticipants type state)))
    by apply participantLinesFrom_labels.
  split; [exact E|]. split; [exact L|]. split.
  - rewrite <- (length_map ParticipantLine.label), L, length_map.
    etransitivity; [apply filter_length_le|].
    unfold rankedParticipants. apply firstn_le_length.
  - intros line Hline. unfold participantLines in Hline.
    apply participantLinesFrom_In in Hline as (p & Hp & Hperf & Hlabel & Hdata).
    exists p. rewrite E in Hp.
    assert (Hp' : In p (filter (fun entry => String.eqb (Participant.type entry) type)
                          (renderLeaderboard_sorted state)))
      by (rewrite <- (firstn_skipn 4); apply in_or_app; now left).
    apply filter_In in Hp' as [Hin Ht].
    unfold renderLeaderboard_sorted in Hin.
    apply (proj1 (sort_In _ _ _)) in Hin.
    repeat split; try assumption. now apply String.eqb_eq.
Qed.

Lemma participantLines_leaderboard_witness :
  exists participant,
    In participant (State.participants mergeExample) /\
    Participant.type participant = "LLM" /\
    hasPerformance participant = true /\
    "P" = Participant.name participant /\
    Permutation [PerformancePoint.mk (Some 3) (Some 4%Q)]
      (orEmpty (Participant.performance participant)).
Proof.
  destruct (participantLines_leaderboard "LLM" mergeExample) as (_ & _ & _ & H).
  apply (H (ParticipantLine.mk "P" [PerformancePoint.mk (Some 3) (Some 4%Q)] 0)).
  left. reflexivity.
Defined.

(** ** More on the challenge list *)

(** The list shown is empty only when there is no challenge at all: with
    a current-day marker that some challenge matches it is the challenges
    of that day, in feed order, and in every other case all of them. *)
Theorem selectChallenges_fallback (state : State.t) :
  let shown := selectChallenges state in
  let all := State.dailyChallenges state in
  (shown = [] <-> all = []) /\
  (forall today,
     State.currentDay state = Some today -> today <> 0 ->
     (exists c, In c all /\ DailyChallenge.day c = today) ->
     shown = filter (fun c => DailyChallenge.day c =? today) all) /\
  ((State.currentDay state = None \/ State.currentDay state = Some 0 \/
    forall c, In c all -> Some (DailyChallenge.day c) <> State.currentDay state) ->
   shown = all).
Proof.
  cbv zeta. unfold selectChallenges.
  destruct (State.currentDay state) as [today|]; [|repeat split; try tauto; intros; congruence].
  destruct (Z.eqb_spec today 0) as [->|Hz].
  { split; [tauto|]. split; [intros ? [= <-] H; congruence | reflexivity]. }
  destruct (filter (fun c => DailyChallenge.day c =? today)
              (State.dailyChallenges state)) as [|c cs] eqn:E.
  - split; [tauto|]. split; [|reflexivity].
    intros t [= <-] _ (c & Hc & Hd). exfalso.
    assert (H : In c (filter (fun c => DailyChallenge.day c =? today)
                        (State.dailyChallenges state)))
      by (apply filter_In; split; [assumption | now apply Z.eqb_eq]).
    now rewrite E in H.
  - split; [|split].
    + split; [discriminate|]. intros H. rewrite H in E. discriminate.
    + intros t [= <-] _ _. now rewrite E.
    + intros [H|[H|H]]; [discriminate | congruence |].
      exfalso. assert (Hc : In c (c :: cs)) by now left.
      rewrite <- E in Hc. apply filter_In in Hc as [Hc Hd].
      apply Z.eqb_eq in Hd. apply (H c Hc). now rewrite Hd.
Qed.

Lemma selectChallenges_fallback_witness :
  selectChallenges mergeExample
  = filter (fun c => DailyChallenge.day c =? 3)
      (State.dailyChallenges mergeExample).
Proof.
  destruct (selectChallenges_fallback mergeExample) as (_ & H & _).
  apply H.
  - reflexivity.
  - discriminate.
  - eexists. split; [left; reflexivity | reflexivity].
Defined.

(** On every card the count in the header is the number of rows marked
    correct, the total is the number of rows, and the count is at most
    the total. *)
Theorem renderDailyList_counts (state : State.t) (card : DailyCard.t) :
  In card (renderDailyList state) ->
  DailyCard.correctCount card
  = List.length (filter PredictionItem.correct (DailyCard.items card)) /\
  DailyCard.total card = List.length (DailyCard.items card) /\
  (DailyCard.correctCount card <= DailyCard.total card)%nat.
Proof.
  intros H. unfold renderDailyList in H.
  apply in_map_iff in H as (c & <- & _). unfold dailyCard.
  cbn [DailyCard.correctCount DailyCard.total DailyCard.items].
  set (lookup := participantLookup (State.participants state)).
  set (l := orEmpty (DailyChallenge.predictions c)).
  assert (E : filter PredictionItem.correct (map (predictionItem lookup c) l)
              = map (predictionItem lookup c) (filter Prediction.isCorrect l)).
  { clear. induction l as [|pr l IH]; [reflexivity|].
    simpl. destruct (Prediction.isCorrect pr); simpl; now rewrite IH. }
  rewrite E, !length_map. repeat split. apply filter_length_le.
Qed.

Lemma renderDailyList_counts_witness :
  (DailyCard.correctCount
     (dailyCard (participantLookup (State.participants mergeExample))
        (DailyChallenge.mk "c3" 3
           (Some [predictionOf "P" true; predictionOf "R" false])))
   <= DailyCard.total
        (dailyCard (participantLookup (State.participants mergeExample))
           (DailyChallenge.mk "c3" 3
              (Some [predictionOf "P" true; predictionOf "R" false]))))%nat.
Proof.
  apply (renderDailyList_counts mergeExample
           (dailyCard (participantLookup (State.participants mergeExample))
              (DailyChallenge.mk "c3" 3
                 (Some [predictionOf "P" true; predictionOf "R" false])))).
  left. reflexivity.
Defined.

(** ** The output cache *)

Lemma outputOrDefault_nonempty (prediction : Prediction.t) :
  String.eqb (outputOrDefault prediction) "" = false.
Proof.
  unfold outputOrDefault. destruct (Prediction.output prediction) as [s|];
    [|reflexivity].
  destruct (String.eqb s "") eqn:E; [reflexivity | exact E].
Qed.

Lemma outputCache_entries (state : State.t) :
  renderDailyList_outputCache state
  = JsMap.of_entries string_dec
      (map (fun cp => (outputKey (fst cp) (snd cp), outputOrDefault (snd cp)))
         (renderedPredictions state)).
Proof.
  unfold renderDailyList_outputCache, renderedPredictions, JsMap.of_entries.
  generalize (JsMap.empty (K := string) (V := string)).
  induction (selectChallenges state) as [|c cs IH]; intros m; [reflexivity|].
  cbn [fold_left flat_map]. rewrite map_app, fold_left_app, IH. f_equal.
  unfold cacheChallenge. clear.
  revert m. induction (orEmpty (DailyChallenge.predictions c)) as [|pr prs IH];
    intros m; [reflexivity|].
  cbn [fold_left map]. now rewrite IH.
Qed.

(** After the list has been rendered, the cache gives under the key of a
    prediction that prediction's output (the notice "No output captured."
    when it has none), provided no prediction rendered after it has the
    same key; under a key no rendered prediction has, the modal shows
    "No output recorded."; and it never shows an empty text. *)
Theorem outputCache_lookup (state : State.t) :
  let cache := renderDailyList_outputCache state in
  (forall l1 challenge prediction l2,
     renderedPredictions state = (l1 ++ (challenge, prediction) :: l2)%list ->
     (forall cp, In cp l2 ->
        outputKey (fst cp) (snd cp) <> outputKey challenge prediction) ->
     modalOutput cache (outputKey challenge prediction)
     = outputOrDefault prediction) /\
  (forall key,
     (forall cp, In cp (renderedPredictions state) ->
        outputKey (fst cp) (snd cp) <> key) ->
     modalOutput cache key = "No output recorded.") /\
  (forall key, modalOutput cache key <> "").
Proof.
  cbv zeta. rewrite outputCache_entries. unfold JsMap.of_entries.
  split; [|split].
  - intros l1 c pr l2 E Hl2. unfold modalOutput. rewrite E, map_app.
    cbn [map fst snd]. rewrite set_fold_last.
    + now rewrite outputOrDefault_nonempty.
    + intros e He. apply in_map_iff in He as (cp & <- & Hcp). now apply Hl2.
  - intros key H. unfold modalOutput. rewrite set_fold_absent; [reflexivity|].
    intros e He. apply in_map_iff in He as (cp & <- & Hcp). now apply H.
  - intros key. unfold modalOutput.
    destruct (JsMap.get string_dec key _) as [s|]; [|discriminate].
    destruct (String.eqb s "") eqn:E; [discriminate|].
    now apply String.eqb_neq.
Qed.

Lemma outputCache_lookup_witness :
  modalOutput (renderDailyList_outputCache mergeExample) "c3-P"
  = "No output captured.".
Proof.
  destruct (outputCache_lookup mergeExample) as (H & _).
  apply (H [] (DailyChallenge.mk "c3" 3
                 (Some [predictionOf "P" true; predictionOf "R" false]))
           (predictionOf "P" true)
           [(DailyChallenge.mk "c3" 3
               (Some [predictionOf "P" true; predictionOf "R" false]),
             predictionOf "R" false)]).
  - reflexivity.
  - intros cp [<-|[]]. discriminate.
Defined.

(** ** More on the aggregate series *)

Lemma series_has_day (fadd : Q -> Q -> Q) (toFixed2 : Q -> Z -> Z)
    (type : string) (participantsById : JsMap.t) (state : State.t) (d : Z) :
  In d (map AggregatePoint.x
          (buildAggregateSeries fadd toFixed2 type participantsById state))
  <-> onDay d (contributions type participantsById state) <> [].
Proof.
  destruct (dayTotals_accumulates fadd type participantsById state)
    as [Hnd Hacc].
  pose proof (series_days fadd toFixed2 type participantsById state) as Hdays.
  specialize (Hacc d). split.
  - intros H. apply (Permutation_in _ Hdays) in H.
    destruct (JsMap.get Z.eq_dec d (dayTotals fadd type participantsById state))
      eqn:E; [tauto|].
    now apply get_None_keys in E.
  - intros H. apply (Permutation_in _ (Permutation_sym Hdays)).
    destruct (JsMap.get Z.eq_dec d (dayTotals fadd type participantsById state))
      eqn:E; [|tauto].
    apply get_Some_In in E. change d with (fst (d, t)). now apply in_map.
Qed.

Lemma series_strict (fadd : Q -> Q -> Q) (toFixed2 : Q -> Z -> Z)
    (type : string) (participantsById : JsMap.t) (state : State.t) :
  StronglySorted (fun a b => AggregatePoint.x a < AggregatePoint.x b)
    (buildAggregateSeries fadd toFixed2 type participantsById state).
Proof.
  destruct (dayTotals_accumulates fadd type participantsById state)
    as [Hnd _].
  apply StronglySorted_strict.
  - apply sort_sorted. intros; reflexivity.
  - apply (Permutation_NoDup
             (Permutation_sym
                (series_days fadd toFixed2 type participantsById state))
             Hnd).
Qed.

Lemma series_In (fadd : Q -> Q -> Q) (toFixed2 : Q -> Z -> Z)
    (type : string) (participantsById : JsMap.t) (state : State.t)
    (point : AggregatePoint.t) :
  In point (buildAggregateSeries fadd toFixed2 type participantsById state)
  <-> (let values :=
         onDay (AggregatePoint.x point)
           (contributions type participantsById state) in
       values <> [] /\
       AggregatePoint.y point = toFixed2 (floatSum fadd values) (countZ values)).
Proof.
  split; [apply series_point|].
  cbv zeta. intros [Hne Hy].
  apply series_has_day with (fadd := fadd) (toFixed2 := toFixed2) in Hne.
  apply in_map_iff in Hne as (p' & Hx & Hp').
  destruct (series_point _ _ _ _ _ _ Hp') as [_ Hy'].
  rewrite Hx, <- Hy in Hy'.
  destruct point as [x y], p' as [x' y']. simpl in *. now subst.
Qed.

Lemma no_members_no_contributions (type : string) (state : State.t) :
  (forall p, In p (State.participants state) -> Participant.type p <> type) ->
  contributions type (participantLookup (State.participants state)) state = [].
Proof.
  intros Hnone. unfold contributions.
  assert (E1 : performanceContributions type state = []).
  { unfold performanceContributions.
    induction (State.participants state) as [|p ps IH]; [reflexivity|].
    simpl. unfold participantContributions at 1.
    destruct (String.eqb_spec (Participant.type p) type) as [E|_].
    - exfalso. now apply (Hnone p (or_introl eq_refl)).
    - apply IH. intros; apply Hnone; now right. }
  assert (E2 : predictionContributions type
                 (participantLookup (State.participants state)) state = []).
  { unfold predictionContributions.
    induction (State.dailyChallenges state) as [|c cs IH]; [reflexivity|].
    simpl. rewrite IH, app_nil_r. unfold challengeContributions.
    induction (orEmpty (DailyChallenge.predictions c)) as [|pr prs IHp];
      [reflexivity|].
    simpl. unfold byCohort at 1.
    destruct (JsMap.get id_eq_dec (Some (Prediction.participantId pr))
                (participantLookup (State.participants state))) as [p|] eqn:G;
      [|exact IHp].
    apply participantLookup_In in G as [Hp _].
    destruct (String.eqb_spec (Participant.type p) type) as [E|_]; [|exact IHp].
    exfalso. now apply (Hnone p). }
  now rewrite E1, E2.
Qed.

Lemma series_empty_iff (fadd : Q -> Q -> Q) (toFixed2 : Q -> Z -> Z)
    (type : string) (participantsById : JsMap.t) (state : State.t) :
  buildAggregateSeries fadd toFixed2 type participantsById state = []
  <-> contributions type participantsById state = [].
Proof.
  split.
  - intros E. destruct (contributions type participantsById state)
      as [|[d v] cs] eqn:Hc; [reflexivity|].
    exfalso.
    assert (H : onDay d (contributions type participantsById state) <> []).
    { rewrite Hc. unfold onDay. simpl. rewrite Z.eqb_refl. discriminate. }
    apply series_has_day with (fadd := fadd) (toFixed2 := toFixed2) in H.
    now rewrite E in H.
  - intros E.
    destruct (buildAggregateSeries fadd toFixed2 type participantsById state)
      as [|p ps] eqn:Hs; [reflexivity|].
    exfalso.
    assert (H : In (AggregatePoint.x p)
                  (map AggregatePoint.x
                     (buildAggregateSeries fadd toFixed2 type participantsById
                        state)))
      by (rewrite Hs; now left).
    apply series_has_day in H. rewrite E in H. now apply H.
Qed.

(** The series is empty exactly when the cohort has no contribution; in
    particular a cohort without any participant of its type has an empty
    series, whatever predictions the challenges hold. *)
Theorem buildAggregateSeries_empty (fadd : Q -> Q -> Q)
    (toFixed2 : Q -> Z -> Z) (type : string)
    (participantsById : JsMap.t (K := option string) (V := Participant.t))
    (state : State.t) :
  (buildAggregateSeries fadd toFixed2 type participantsById state = []
   <-> contributions type participantsById state = []) /\
  ((forall p, In p (State.participants state) -> Participant.type p <> type) ->
   aggregateData fadd toFixed2 type state = []).
Proof.
  split; [apply series_empty_iff|].
  intros H. unfold aggregateData. apply series_empty_iff.
  now apply no_members_no_contributions.
Qed.

Lemma buildAggregateSeries_empty_witness :
  aggregateData Qplus roundHalfUp "Agent" mergeExample = [].
Proof.
  apply (buildAggregateSeries_empty Qplus roundHalfUp "Agent"
           (participantLookup (State.participants mergeExample)) mergeExample).
  intros p [<-|[<-|[]]]; discriminate.
Defined.

Lemma sumZ_perm (l l' : list Z) : Permutation l l' -> sumZ l = sumZ l'.
Proof.
  induction 1 as [|x l l' _ IH|x y l|l l' l'' _ IH1 _ IH2]; simpl;
    [reflexivity | now rewrite IH | lia | congruence].
Qed.

Lemma integral_list (values : list Q) :
  Forall integral values -> values = map inject_Z (map Qnum values).
Proof.
  induction 1 as [|v l [z ->] _ IH]; [reflexivity|].
  simpl. now rewrite <- IH.
Qed.

(** With integer values the sum is the same in whatever order the values
    are added. *)
Lemma floatSum_perm (fadd : Q -> Q -> Q) (values values' : list Q) :
  exactOnIntegers fadd -> Forall integral values ->
  Permutation values values' ->
  floatSum fadd values = floatSum fadd values'.
Proof.
  intros Hexact Hint Hp.
  assert (Hint' : Forall integral values').
  { apply Forall_forall. intros v Hv. rewrite Forall_forall in Hint.
    apply Hint. now apply (Permutation_in _ (Permutation_sym Hp)). }
  rewrite (integral_list _ Hint), (integral_list _ Hint').
  rewrite !floatSum_integers by assumption. f_equal.
  apply sumZ_perm. now apply Permutation_map.
Qed.

Lemma contributions_integral (type : string) (participantsById : JsMap.t)
    (state : State.t) :
  integralPerformance (State.participants state) ->
  Forall (fun c => integral (snd c)) (contributions type participantsById state).
Proof.
  intros Hint. unfold contributions. apply Forall_app. split.
  - unfold performanceContributions. apply Forall_flat_map, Forall_forall.
    intros p Hp. unfold participantContributions.
    destruct (String.eqb (Participant.type p) type); [|constructor].
    apply Forall_flat_map, Forall_forall. intros pt Hpt.
    unfold pointContribution.
    destruct (PerformancePoint.day pt) as [d|]; [|constructor].
    destruct (PerformancePoint.solved pt) as [q|] eqn:E; [|constructor].
    repeat constructor. apply clampBetween_integral. now apply (Hint p pt q).
  - unfold predictionContributions. apply Forall_flat_map, Forall_forall.
    intros c _. unfold challengeContributions. apply Forall_map, Forall_forall.
    intros pr _. now exists (predictionScore pr).
Qed.

(** When every solved value is an integer, so that the engine adds them
    up exactly, the series does not depend, for a given lookup of
    participants, on the order in which the participants or the
    challenges are listed. *)
Theorem buildAggregateSeries_order_independent (fadd : Q -> Q -> Q)
    (toFixed2 : Q -> Z -> Z) (type : string)
    (participantsById : JsMap.t (K := option string) (V := Participant.t))
    (state state' : State.t) :
  exactOnIntegers fadd ->
  integralPerformance (State.participants state) ->
  Permutation (State.participants state) (State.participants state') ->
  Permutation (State.dailyChallenges state) (State.dailyChallenges state') ->
  buildAggregateSeries fadd toFixed2 type participantsById state
  = buildAggregateSeries fadd toFixed2 type participantsById state'.
Proof.
  intros Hexact Hint Hp Hc.
  assert (Hcs : Permutation (contributions type participantsById state)
                  (contributions type participantsById state')).
  { unfold contributions, performanceContributions, predictionContributions.
    apply Permutation_app; now apply Permutation_flat_map. }
  assert (Hday : forall d,
             Permutation (onDay d (contributions type participantsById state))
               (onDay d (contributions type participantsById state'))).
  { intros d. unfold onDay. now apply Permutation_map, Permutation_filter. }
  assert (Hvals : forall d,
             Forall integral (onDay d (contributions type participantsById state))).
  { intros d. unfold onDay. apply Forall_map, Forall_forall.
    intros c H. apply filter_In in H as [H _].
    pose proof (contributions_integral type participantsById state Hint) as G.
    rewrite Forall_forall in G. now apply G. }
  apply (strict_sorted_ext AggregatePoint.x); try apply series_strict.
  intros point. rewrite !series_In. cbv zeta.
  specialize (Hday (AggregatePoint.x point)).
  rewrite (floatSum_perm fadd _ _ Hexact (Hvals _) Hday). unfold countZ.
  rewrite (Permutation_length Hday).
  split; intros [Hne Hy]; (split; [|exact Hy]); intros E; apply Hne.
  - rewrite E in Hday. now apply Permutation_nil.
  - rewrite E in Hday. apply Permutation_sym in Hday. now apply Permutation_nil.
Qed.

Lemma buildAggregateSeries_order_independent_witness :
  buildAggregateSeries Qplus roundHalfUp "LLM"
    (participantLookup (State.participants mergeExample)) mergeExample
  = buildAggregateSeries Qplus roundHalfUp "LLM"
      (participantLookup (State.participants mergeExample))
      (withParticipants mergeExample (rev (State.participants mergeExample))).
Proof.
  apply buildAggregateSeries_order_independent.
  - exact Qplus_exactOnIntegers.
  - intros participant point solved [<-|[<-|[]]] Hpt E.
    + destruct Hpt as [<-|[]]. injection E as <-. now exists 4.
    + destruct Hpt.
  - apply Permutation_rev.
  - apply Permutation_refl.
Defined.

(** ** [applyData] *)

(** A payload without a participant list still gives every view its
    value: an empty leaderboard, no chart line and an empty series for
    every cohort, and every prediction shown under the placeholder
    identity. *)
Theorem applyData_without_participants (data : Payload.t) :
  Payload.participants data = None ->
  let state := applyData data in
  renderLeaderboard_sorted state = [] /\
  (forall type, rankedParticipants type state = []) /\
  (forall fadd toFixed2 type, aggregateData fadd toFixed2 type state = []) /\
  (forall card item,
     In card (renderDailyList state) -> In item (DailyCard.items card) ->
     PredictionItem.label item = "Unknown" /\
     PredictionItem.typeLabel item = "LLM API").
Proof.
  intros Hnone state.
  assert (Hp : State.participants state = [])
    by (subst state; unfold applyData; cbn; now rewrite Hnone).
  split; [|split; [|split]].
  - unfold renderLeaderboard_sorted. now rewrite Hp.
  - intros type. unfold rankedParticipants. now rewrite Hp.
  - intros fadd toFixed2 type. unfold aggregateData. apply series_empty_iff.
    apply no_members_no_contributions. rewrite Hp. intros p [].
  - intros card item Hcard Hitem. unfold renderDailyList in Hcard.
    rewrite Hp in Hcard. apply in_map_iff in Hcard as (c & <- & _).
    cbn [dailyCard DailyCard.items] in Hitem.
    apply in_map_iff in Hitem as (pr & <- & _).
    split; reflexivity.
Qed.

Lemma applyData_without_participants_witness :
  renderLeaderboard_sorted (applyData (Payload.mk (Some 1) None None None)) = [].
Proof.
  apply (applyData_without_participants (Payload.mk (Some 1) None None None)).
  reflexivity.
Defined.

(** ** [formatRelative] *)

(** The text is "now" below half a minute; minutes run from 1 to 59,
    hours from 1 to 23 and days from 1 on, so a count of 0, of 60 minutes
    or of 24 hours is never shown; the count is the rounded number of its
    unit, hours being rounded from the rounded minutes and days from the
    rounded hours (so "1 day" starts at 23 hours 29.5 minutes); and the
    plural mark is left out exactly for a count of 1. *)
Theorem formatRelative_ranges (diff : Z) :
  match formatRelative diff with
  | RelNow => diff < 30000
  | RelMinutes n plural =>
      1 <= n <= 59 /\
      60000 * n - 30000 <= diff < 60000 * n + 30000 /\
      (plural = false <-> n = 1)
  | RelHours n plural =>
      1 <= n <= 23 /\
      3600000 * n - 1830000 <= diff < 3600000 * n + 1770000 /\
      (plural = false <-> n = 1)
  | RelDays n plural =>
      1 <= n /\
      86400000 * n - 45030000 <= diff < 86400000 * n + 41370000 /\
      (plural = false <-> n = 1)
  end.
Proof.
  unfold formatRelative, mathRoundDiv. cbv zeta.
  assert (P : forall n, negb (n =? 1) = false <-> n = 1).
  { intros n. destruct (Z.eqb_spec n 1); simpl; split; congruence. }
  destruct (Z.leb_spec ((2 * diff + 60000) / (2 * 60000)) 0) as [H0|H0].
  { Z.div_mod_to_equations. lia. }
  destruct (Z.ltb_spec ((2 * diff + 60000) / (2 * 60000)) 60) as [H1|H1].
  { split; [lia|]. split; [|apply P]. Z.div_mod_to_equations. lia. }
  set (m := (2 * diff + 60000) / (2 * 60000)) in *.
  assert (Hm : 60000 * m - 30000 <= diff < 60000 * m + 30000)
    by (subst m; Z.div_mod_to_equations; lia).
  destruct (Z.ltb_spec ((2 * m + 60) / (2 * 60)) 24) as [H2|H2].
  { split; [split; [|lia]|split; [|apply P]]; Z.div_mod_to_equations; lia. }
  set (h := (2 * m + 60) / (2 * 60)) in *.
  assert (Hh : 60 * h - 30 <= m < 60 * h + 30)
    by (subst h; Z.div_mod_to_equations; lia).
  split; [|split; [|apply P]]; Z.div_mod_to_equations; lia.
Qed.

(** ** [validateSubmission] *)

Section SubmissionFacts.
Context {C : Type}.
Variable C_eq_dec : forall a b : C, {a = b} + {a <> b}.
Variable isWhiteSpace : C -> bool.
Variable comma : C.
Hypothesis comma_not_white : isWhiteSpace comma = false.

Lemma dropWhile_In (f : C -> bool) (s : list C) (c : C) :
  In c (dropWhile f s) -> In c s.
Proof.
  induction s as [|x s IH]; simpl; [tauto|].
  destruct (f x); [intros H; right; now apply IH | tauto].
Qed.

Lemma dropWhile_keeps (f : C -> bool) (s : list C) (c : C) :
  In c s -> f c = false -> In c (dropWhile f s).
Proof.
  intros Hin Hc. induction s as [|x s IH]; simpl; [destruct Hin|].
  destruct (f x) eqn:E; [|exact Hin].
  destruct Hin as [->|Hin]; [congruence | now apply IH].
Qed.

Lemma trim_In (s : list C) (c : C) : In c (trim isWhiteSpace s) -> In c s.
Proof.
  unfold trim. intros H. apply (proj2 (in_rev _ _)) in H.
  apply dropWhile_In in H. apply (proj2 (in_rev _ _)) in H.
  now apply dropWhile_In in H.
Qed.

Lemma trim_keeps (s : list C) (c : C) :
  In c s -> isWhiteSpace c = false -> In c (trim isWhiteSpace s).
Proof.
  unfold trim. intros H Hc. apply (proj1 (in_rev _ _)).
  apply dropWhile_keeps; [|assumption]. apply (proj1 (in_rev _ _)).
  now apply dropWhile_keeps.
Qed.

Lemma dropWhile_no_head (f : C -> bool) (s : list C) :
  match dropWhile f s with
  | [] => True
  | c :: _ => f c = false
  end.
Proof.
  induction s as [|x s IH]; simpl; [exact I|].
  destruct (f x) eqn:E; [exact IH | exact E].
Qed.

(** What [trim] returns is empty, or has a character that is not white
    space. *)
Lemma trim_nonEmpty (s : list C) :
  nonEmpty (trim isWhiteSpace s) = true <->
  exists c, In c s /\ isWhiteSpace c = false.
Proof.
  split.
  - intros H. unfold trim in H.
    pose proof (dropWhile_no_head isWhiteSpace (rev (dropWhile isWhiteSpace s))) as Hh.
    destruct (dropWhile isWhiteSpace (rev (dropWhile isWhiteSpace s)))
      as [|c t] eqn:E; [discriminate|].
    exists c. split; [|assumption].
    assert (Hc : In c (c :: t)) by now left.
    rewrite <- E in Hc. apply dropWhile_In in Hc.
    apply (proj2 (in_rev _ _)) in Hc. now apply dropWhile_In in Hc.
  - intros (c & Hin & Hc). pose proof (trim_keeps s c Hin Hc) as H.
    destruct (trim isWhiteSpace s); [destruct H | reflexivity].
Qed.

Lemma split_no_comma (s piece : list C) :
  In piece (split C_eq_dec comma s) -> ~ In comma piece.
Proof.
  revert piece. induction s as [|c s IH]; intros piece; simpl.
  - intros [<-|[]] [].
  - destruct (C_eq_dec c comma) as [->|Hn].
    + intros [<-|H]; [intros [] | now apply IH].
    + destruct (split C_eq_dec comma s) as [|p ps] eqn:E.
      * intros [<-|[]] [H|[]]. congruence.
      * intros [<-|H].
        -- intros [H|H]; [congruence|]. apply (IH p); [now left | assumption].
        -- apply IH. now right.
Qed.

Lemma includes_In (options : list (list C)) (s : list C) :
  includes C_eq_dec options (Some s) = true <-> In s options.
Proof.
  unfold includes. rewrite existsb_exists. split.
  - intros (o & Ho & E). destruct (list_eq_dec C_eq_dec o s); [now subst | discriminate].
  - intros H. exists s. split; [assumption|].
    destruct (list_eq_dec C_eq_dec s s); [reflexivity | congruence].
Qed.

Lemma answerOptions_In (payload : FormData.t C) (o : list C) :
  In o (answerOptions C_eq_dec isWhiteSpace comma payload) <->
  nonEmpty o = true /\
  exists piece,
    In piece (split C_eq_dec comma (orEmpty (FormData.answers payload))) /\
    o = trim isWhiteSpace piece.
Proof.
  unfold answerOptions. rewrite filter_In, in_map_iff.
  split.
  - intros [(piece & <- & Hp) Hne]. split; [assumption | now exists piece].
  - intros [Hne (piece & Hp & ->)]. split; [now exists piece | assumption].
Qed.

(** A challenge form is accepted exactly when its correct answer, once
    trimmed, is not empty and is one of the comma-separated answers, once
    trimmed.  So it is refused when the correct answer is missing or
    blank, and also when the correct answer contains a comma, whatever
    the answers are. *)
Theorem validateSubmission_challenge (payload : FormData.t C) :
  let result :=
    validateSubmission C_eq_dec isWhiteSpace comma "challenge" payload in
  (Validation.isValid result = true <->
   exists c piece,
     FormData.correct payload = Some c /\
     nonEmpty (trim isWhiteSpace c) = true /\
     In piece (split C_eq_dec comma (orEmpty (FormData.answers payload))) /\
     trim isWhiteSpace c = trim isWhiteSpace piece) /\
  (blank isWhiteSpace (FormData.correct payload) = true ->
   Validation.isValid result = false) /\
  (forall c, FormData.correct payload = Some c -> In comma c ->
     Validation.isValid result = false).
Proof.
  cbv zeta.
  assert (Hiff : Validation.isValid
                   (validateSubmission C_eq_dec isWhiteSpace comma "challenge" payload)
                 = true <->
                 exists c piece,
                   FormData.correct payload = Some c /\
                   nonEmpty (trim isWhiteSpace c) = true /\
                   In piece (split C_eq_dec comma (orEmpty (FormData.answers payload))) /\
                   trim isWhiteSpace c = trim isWhiteSpace piece).
  { unfold validateSubmission. cbn [String.eqb Ascii.eqb Bool.eqb andb].
    destruct (answerOptions C_eq_dec isWhiteSpace comma payload) as [|o os] eqn:E.
    - cbn. split; [discriminate|].
      intros (c & piece & _ & Hne & Hp & Ht). exfalso.
      assert (H : In (trim isWhiteSpace c)
                    (answerOptions C_eq_dec isWhiteSpace comma payload))
        by (apply answerOptions_In; split; [assumption | now exists piece]).
      now rewrite E in H.
    - cbn [nonEmpty negb]. rewrite <- E.
      destruct (FormData.correct payload) as [c|]; cbn [option_map].
      + destruct (includes C_eq_dec
                    (answerOptions C_eq_dec isWhiteSpace comma payload)
                    (Some (trim isWhiteSpace c))) eqn:I; cbn.
        * apply includes_In, answerOptions_In in I as (Hne & piece & Hp & Ht).
          split; [intros _ | reflexivity]. now exists c, piece.
        * split; [discriminate|].
          intros (c' & piece & [= <-] & Hne & Hp & Ht). exfalso.
          assert (H : includes C_eq_dec
                        (answerOptions C_eq_dec isWhiteSpace comma payload)
                        (Some (trim isWhiteSpace c)) = true)
            by (apply includes_In, answerOptions_In; split;
                [assumption | now exists piece]).
          congruence.
      + cbn. split; [discriminate|]. intros (c & piece & H & _). discriminate. }
  split; [exact Hiff|]. split.
  - intros Hb. apply not_true_is_false. intros V.
    apply Hiff in V as (c & piece & Hc & Hne & _).
    unfold blank in Hb. rewrite Hc, Hne in Hb. discriminate.
  - intros c Hc Hcomma. apply not_true_is_false. intros V.
    apply Hiff in V as (c' & piece & Hc' & _ & Hp & Ht).
    rewrite Hc in Hc'. injection Hc' as <-.
    apply (split_no_comma _ _ Hp). apply (trim_In piece). rewrite <- Ht.
    now apply trim_keeps.
Qed.

(** An LLM form is accepted exactly when its endpoint has a character
    that is not white space, an agent form exactly when its repository
    has one, and a form of any other type but the three is always
    accepted. *)
Theorem validateSubmission_required_field (formType : string)
    (payload : FormData.t C) :
  let result := validateSubmission C_eq_dec isWhiteSpace comma formType payload in
  (formType = "llm" ->
   (Validation.isValid result = true <->
    exists s c, FormData.endpoint payload = Some s /\ In c s /\
                isWhiteSpace c = false)) /\
  (formType = "agent" ->
   (Validation.isValid result = true <->
    exists s c, FormData.repo payload = Some s /\ In c s /\
                isWhiteSpace c = false)) /\
  (formType <> "challenge" -> formType <> "llm" -> formType <> "agent" ->
   Validation.isValid result = true).
Proof.
  cbv zeta.
  assert (B : forall field : option (list C),
             blank isWhiteSpace field = false <->
             exists s c, field = Some s /\ In c s /\ isWhiteSpace c = false).
  { intros [s|]; unfold blank.
    - rewrite negb_false_iff, trim_nonEmpty. split.
      + intros (c & H1 & H2). now exists s, c.
      + intros (s' & c & [= <-] & H1 & H2). now exists c.
    - split; [discriminate | intros (s & c & H & _); discriminate]. }
  split; [|split].
  - intros ->. unfold validateSubmission.
    cbn [String.eqb Ascii.eqb Bool.eqb andb]. rewrite <- B.
    destruct (blank isWhiteSpace (FormData.endpoint payload)); cbn;
      split; congruence.
  - intros ->. unfold validateSubmission.
    cbn [String.eqb Ascii.eqb Bool.eqb andb]. rewrite <- B.
    destruct (blank isWhiteSpace (FormData.repo payload)); cbn;
      split; congruence.
  - intros H1 H2 H3. unfold validateSubmission.
    apply String.eqb_neq in H1, H2, H3. now rewrite H1, H2, H3.
Qed.

End SubmissionFacts.

Lemma validateSubmission_challenge_witness :
  Validation.isValid
    (validateSubmission Ascii.ascii_dec asciiWhiteSpace ","%char "challenge"
       (challengeForm "yes, no" "yes, no"))
  = false.
Proof.
  destruct (validateSubmission_challenge Ascii.ascii_dec asciiWhiteSpace
              ","%char eq_refl (challengeForm "yes, no" "yes, no"))
    as (_ & _ & H).
  apply (H (list_ascii_of_string "yes, no")).
  - reflexivity.
  - simpl. tauto.
Defined.

Lemma validateSubmission_required_field_witness :
  Validation.isValid
    (validateSubmission Ascii.ascii_dec asciiWhiteSpace ","%char "llm"
       (llmForm " https://api "))
  = true.
Proof.
  destruct (validateSubmission_required_field Ascii.ascii_dec asciiWhiteSpace
              ","%char "llm" (llmForm " https://api ")) as (H & _).
  apply (H eq_refl).
  exists (list_ascii_of_string " https://api "), "h"%char.
  split; [reflexivity|]. split; [simpl; tauto | reflexivity].
Defined.
